(** * CallRail to Google Ads conversion sync: value pipeline

    A shallow embedding of the two Netlify functions of the repository:
    the CSV export, which aggregates the calls of one caller, and the
    spreadsheet sync, which values every call on its own.

    Conventions of the embedding.
    - A JavaScript string is a [string]: a sequence of code units, of which
      the model keeps those below 256.
    - A JavaScript number is a rational ([Q]) and the arithmetic on it is
      exact; the call records are decoded JSON, where NaN cannot occur.
      The rounding of IEEE doubles is not part of the model.
    - [undefined] and [null] fields are [None]; an object used as a
      dictionary is a list of (key, value) pairs in insertion order.
    - Loops that mutate local state are folds over an explicit state.
    - The handler is modelled on a run whose fetch succeeds, up to the
      statistics and the list of conversions it holds in memory; the reply
      to OPTIONS, the error reply and the rendering of the body as CSV or
      JSON are left out.  The host's reading of a date string in local time
      is a parameter of the formatting functions. *)

From Stdlib Require Import List Bool Arith ZArith NArith QArith Qround Qabs.
From Stdlib Require Import Lia Lqa String Ascii Permutation DecimalString.
Import ListNotations.

Open Scope string_scope.
Open Scope list_scope.
Open Scope nat_scope.

(** ** The fragment of JavaScript the two functions rely on *)

Module JS.

(** *** Truthiness and the [||] operator *)

Definition truthyStr (s : string) : bool :=
  match s with EmptyString => false | String _ _ => true end.

Definition truthyNum (q : Q) : bool := negb (Qeq_bool q 0%Q).

Definition truthyOptStr (o : option string) : bool :=
  match o with Some s => truthyStr s | None => false end.

Definition truthyOptNum (o : option Q) : bool :=
  match o with Some q => truthyNum q | None => false end.

(** [o || d] for an optional string and a string default. *)
Definition orStr (o : option string) (d : string) : string :=
  match o with
  | Some s => if truthyStr s then s else d
  | None => d
  end.

(** [o || d] for an optional number and a number default. *)
Definition orNum (o : option Q) (d : Q) : Q :=
  match o with
  | Some q => if truthyNum q then q else d
  | None => d
  end.

(** *** Comparison of numbers *)

Definition ge (a b : Q) : bool := Qle_bool b a.
Definition gt (a b : Q) : bool := negb (Qle_bool a b).
Definition le (a b : Q) : bool := Qle_bool a b.
Definition lt (a b : Q) : bool := negb (Qle_bool b a).

(** [Math.round]: the nearest integer, halves towards plus infinity. *)
Definition Math_round (x : Q) : Z := Qfloor (x + (1 # 2))%Q.

(** *** Characters and strings *)

Definition code (c : ascii) : nat := nat_of_ascii c.

Definition between (lo hi n : nat) : bool := (lo <=? n) && (n <=? hi).

(** [\d] *)
Definition isDigit (c : ascii) : bool := between 48 57 (code c).

(** [\D] *)
Definition isNonDigit (c : ascii) : bool := negb (isDigit c).

(** [\s]: tab, line feed, vertical tab, form feed, carriage return, space
    and no-break space (the white space below 256). *)
Definition isSpace (c : ascii) : bool :=
  between 9 13 (code c) || (code c =? 32) || (code c =? 160).

Definition lowerChar (c : ascii) : ascii :=
  let n := code c in
  if between 65 90 n || (between 192 222 n && negb (n =? 215))
  then ascii_of_nat (n + 32) else c.

(** The canonical form of a character under the [i] flag: its upper case
    when that is a single code unit of the same range. *)
Definition canonChar (c : ascii) : ascii :=
  let n := code c in
  if between 97 122 n || (between 224 254 n && negb (n =? 247))
  then ascii_of_nat (n - 32) else c.

Fixpoint toLowerCase (s : string) : string :=
  match s with
  | EmptyString => EmptyString
  | String c s' => String (lowerChar c) (toLowerCase s')
  end.

Fixpoint take (n : nat) (s : string) : string :=
  match n, s with
  | S n', String c s' => String c (take n' s')
  | _, _ => EmptyString
  end.

Fixpoint drop (n : nat) (s : string) : string :=
  match n, s with
  | S n', String _ s' => drop n' s'
  | _, _ => s
  end.

(** [s.slice(-n)]: the last [n] code units of [s]. *)
Definition sliceLast (n : nat) (s : string) : string :=
  drop (String.length s - n) s.

(** [s.replace(/class/g, '')]: every character of the class is deleted. *)
Fixpoint deleteAll (p : ascii -> bool) (s : string) : string :=
  match s with
  | EmptyString => EmptyString
  | String c s' => if p c then deleteAll p s' else String c (deleteAll p s')
  end.

(** [String(n)] for an integer [n]. *)
Definition stringOfInt (n : Z) : string :=
  NilZero.string_of_int (Z.to_int n).

(** [s.padStart(n, c)] *)
Definition padStart (n : nat) (c : ascii) (s : string) : string :=
  (string_of_list_ascii (repeat c (n - String.length s)) ++ s)%string.

(** Every character of [s] is in the class [p]. *)
Fixpoint forallChars (p : ascii -> bool) (s : string) : bool :=
  match s with
  | EmptyString => true
  | String c s' => p c && forallChars p s'
  end.

(** [parts.join(sep)] on an array of strings. *)
Definition join (sep : string) (parts : list string) : string :=
  String.concat sep parts.

(** *** Regular expressions

    The patterns of the repository are sequences of literal characters,
    character classes, a starred class and one capturing group around a
    class repeated at least once.  Matching is the backtracking search of
    the language: quantifiers are greedy and give characters back one at a
    time; the search tries every start position from the left. *)

Inductive node : Type :=
| Chr (c : ascii)
| Cls (p : ascii -> bool)
| Star (p : ascii -> bool)
| GroupPlus (p : ascii -> bool).

Record regex : Type := { re_nodes : list node; re_ignoreCase : bool }.

Definition charEq (ic : bool) (c a : ascii) : bool :=
  if ic then Ascii.eqb (canonChar c) (canonChar a) else Ascii.eqb c a.

(** Length of the longest prefix of [s] whose characters are all in [p]. *)
Fixpoint span (p : ascii -> bool) (s : string) : nat :=
  match s with
  | String c s' => if p c then S (span p s') else 0
  | EmptyString => 0
  end.

(** Try [k] repetitions, then [k - 1], ... down to [least]. *)
Fixpoint backtrack {A : Type} (least : nat) (cont : nat -> option A)
    (k : nat) : option A :=
  if k <? least then None
  else match cont k with
       | Some r => Some r
       | None =>
           match k with
           | O => None
           | S k' => backtrack least cont k'
           end
       end.

(** Match the nodes at the start of [s]; the result is capture group 1. *)
Fixpoint matchHere (ic : bool) (ns : list node) (s : string)
    (cap : option string) : option (option string) :=
  match ns with
  | [] => Some cap
  | Chr c :: ns' =>
      match s with
      | String a s' => if charEq ic c a then matchHere ic ns' s' cap else None
      | EmptyString => None
      end
  | Cls p :: ns' =>
      match s with
      | String a s' => if p a then matchHere ic ns' s' cap else None
      | EmptyString => None
      end
  | Star p :: ns' =>
      backtrack 0 (fun k => matchHere ic ns' (drop k s) cap) (span p s)
  | GroupPlus p :: ns' =>
      backtrack 1 (fun k => matchHere ic ns' (drop k s) (Some (take k s)))
        (span p s)
  end.

(** [s.match(r)] for a pattern without the [g] flag: the leftmost match;
    [None] is [null], [Some m] a match whose element 1 is [m]. *)
Fixpoint exec (r : regex) (s : string) : option (option string) :=
  match matchHere (re_ignoreCase r) (re_nodes r) s None with
  | Some m => Some m
  | None =>
      match s with
      | EmptyString => None
      | String _ s' => exec r s'
      end
  end.

Definition lit (s : string) : list node := map Chr (list_ascii_of_string s).

(** *** Objects used as dictionaries *)

Section Dict.
Context {A : Type}.

(** Own property read. *)
Fixpoint get (o : list (string * A)) (k : string) : option A :=
  match o with
  | [] => None
  | (k', v) :: o' => if String.eqb k' k then Some v else get o' k
  end.

(** Assignment [o[k] = v]: an existing key keeps its place. *)
Fixpoint assign (o : list (string * A)) (k : string) (v : A)
    : list (string * A) :=
  match o with
  | [] => [(k, v)]
  | (k', v') :: o' =>
      if String.eqb k' k then (k', v) :: o' else (k', v') :: assign o' k v
  end.
End Dict.

(** The properties every object literal inherits from [Object.prototype]. *)
Definition objectPrototypeKeys : list string :=
  [ "constructor"; "__proto__"; "hasOwnProperty"; "isPrototypeOf";
    "propertyIsEnumerable"; "toLocaleString"; "toString"; "valueOf";
    "__defineGetter__"; "__defineSetter__"; "__lookupGetter__";
    "__lookupSetter__" ].

Definition inherited (k : string) : bool :=
  existsb (String.eqb k) objectPrototypeKeys.

(** What a function whose result is meant to be a number returns: a number,
    or the member of [Object.prototype] a dictionary lookup ran into. *)
Inductive value : Type :=
| Num (q : Q)
| Proto (name : string).

(** The value of [o[k]] on an object literal. *)
Inductive property (A : Type) : Type :=
| Own (v : A)
| Member (name : string)
| Undefined.
Arguments Own {A} v.
Arguments Member {A} name.
Arguments Undefined {A}.

Definition read {A : Type} (o : list (string * A)) (k : string)
    : property A :=
  match get o k with
  | Some v => Own v
  | None => if inherited k then Member k else Undefined
  end.

(** *** Enumeration order of own keys ([for ... in], [Object.keys])

    Keys that are array indices come first, in ascending numeric order;
    the other keys follow in insertion order. *)

Fixpoint digitsValue (s : string) (acc : N) : option N :=
  match s with
  | EmptyString => Some acc
  | String c s' =>
      if isDigit c
      then digitsValue s' (acc * 10 + N.of_nat (code c - 48))%N
      else None
  end.

(** The array index a key denotes: a canonical decimal numeral below
    2^32 - 1. *)
Definition arrayIndex (k : string) : option N :=
  match k with
  | EmptyString => None
  | String c rest =>
      if Ascii.eqb c "0" && truthyStr rest then None
      else match digitsValue k 0 with
           | Some n => if (n <? 4294967295)%N then Some n else None
           | None => None
           end
  end.

Definition isIndexKey (k : string) : bool :=
  match arrayIndex k with Some _ => true | None => false end.

Definition indexOf (k : string) : N :=
  match arrayIndex k with Some n => n | None => 0%N end.

Section Keys.
Context {A : Type}.

Fixpoint insertByIndex (e : string * A) (l : list (string * A))
    : list (string * A) :=
  match l with
  | [] => [e]
  | e' :: l' =>
      if (indexOf (fst e) <=? indexOf (fst e'))%N then e :: e' :: l'
      else e' :: insertByIndex e l'
  end.

Definition sortByIndex (l : list (string * A)) : list (string * A) :=
  fold_right insertByIndex [] l.

(** The entries of [o] in the order [for (const k in o)] visits them. *)
Definition forIn (o : list (string * A)) : list (string * A) :=
  sortByIndex (filter (fun e => isIndexKey (fst e)) o)
  ++ filter (fun e => negb (isIndexKey (fst e))) o.
End Keys.

End JS.

(** ** Call records, as the CallRail API returns them *)

Module CallRail.

(** A structured lead score: [{ value, percent, score }]. *)
Record scoreObject : Type := {
  value : option string;
  percent : option Q;
  score : option Q
}.

(** The shapes the [lead_score] field takes. *)
Inductive leadScore : Type :=
| ScoreAbsent
| ScoreBool (b : bool)
| ScoreNumber (q : Q)
| ScoreString (s : string)
| ScoreObject (o : scoreObject).

(** [transcription]: absent, a string, or an object with a [text]. *)
Inductive transcript : Type :=
| NoTranscript
| TranscriptString (s : string)
| TranscriptObject (text : option string).

(** A tag: a string, or an object with a [name]. *)
Inductive tag : Type :=
| TagString (s : string)
| TagObject (name : option string).

Record call : Type := {
  id : option string;
  start_time : option string;
  duration : option Q;
  customer_phone_number : option string;
  source : option string;
  campaign : option string;
  landing_page_url : option string;
  gclid : option string;
  lead_score : leadScore;
  tags : option (list tag);
  note : option string;
  transcription : transcript
}.

(** Truthiness of a lead score. *)
Definition truthyScore (l : leadScore) : bool :=
  match l with
  | ScoreAbsent => false
  | ScoreBool b => b
  | ScoreNumber q => JS.truthyNum q
  | ScoreString s => JS.truthyStr s
  | ScoreObject _ => true
  end.

(** [String(x)] of an object that is not a string, as [join] renders it. *)
Definition objectObject : string := "[object Object]".

(** A call with every field absent. *)
Definition blank : call :=
  {| id := None; start_time := None; duration := None;
     customer_phone_number := None; source := None; campaign := None;
     landing_page_url := None; gclid := None; lead_score := ScoreAbsent;
     tags := None; note := None; transcription := NoTranscript |}.

(** Record updates used to write down concrete calls. *)
Definition withScore (c : call) (l : leadScore) : call :=
  {| id := id c; start_time := start_time c; duration := duration c;
     customer_phone_number := customer_phone_number c; source := source c;
     campaign := campaign c; landing_page_url := landing_page_url c;
     gclid := gclid c; lead_score := l; tags := tags c; note := note c;
     transcription := transcription c |}.

Definition withNote (c : call) (n : string) : call :=
  {| id := id c; start_time := start_time c; duration := duration c;
     customer_phone_number := customer_phone_number c; source := source c;
     campaign := campaign c; landing_page_url := landing_page_url c;
     gclid := gclid c; lead_score := lead_score c; tags := tags c;
     note := Some n; transcription := transcription c |}.

Definition withPhone (c : call) (p : option string) : call :=
  {| id := id c; start_time := start_time c; duration := duration c;
     customer_phone_number := p; source := source c;
     campaign := campaign c; landing_page_url := landing_page_url c;
     gclid := gclid c; lead_score := lead_score c; tags := tags c;
     note := note c; transcription := transcription c |}.

Definition withGclid (c : call) (g : string) : call :=
  {| id := id c; start_time := start_time c; duration := duration c;
     customer_phone_number := customer_phone_number c; source := source c;
     campaign := campaign c; landing_page_url := landing_page_url c;
     gclid := Some g; lead_score := lead_score c; tags := tags c;
     note := note c; transcription := transcription c |}.

End CallRail.

(** ** The CSV export (the caller-aggregating variant) *)

Module CsvExport.
Import CallRail.

Module CONFIG.
(** [CONFIG.products.default] *)
Definition products_default : Q := 3500.

Definition products : list (string * Q) :=
  [ ("3", 895); ("5", 1095); ("7", 1395); ("10", 1995);
    ("15", 2495); ("20", 2995); ("25", 3495); ("30", 3995);
    ("40", 4995); ("50", 5995); ("60", 6995); ("75", 8495);
    ("100", 10995); ("default", products_default) ]%Q.

Definition tiers : list (string * Q) :=
  [ ("very_poor", 0); ("poor", 0.25); ("fair", 0.50); ("good", 0.75);
    ("very_good", 1.0) ]%Q.
End CONFIG.

(** *** Identifier extraction *)

(** [/[?&]gclid=([^&]+)/] *)
Definition gclidPattern : JS.regex :=
  {| JS.re_nodes :=
       JS.Cls (fun c => Ascii.eqb c "?" || Ascii.eqb c "&")
       :: JS.lit "gclid="
       ++ [JS.GroupPlus (fun c => negb (Ascii.eqb c "&"))];
     JS.re_ignoreCase := false |}.

Definition extractGclid (c : call) : option string :=
  if JS.truthyOptStr (gclid c) then gclid c
  else
    match landing_page_url c with
    | Some url =>
        if JS.truthyStr url then
          match JS.exec gclidPattern url with
          | Some m => m
          | None => None
          end
        else None
    | None => None
    end.

(** *** Value calculation *)

Definition scoreMap : list (string * Q) :=
  [ ("very_poor", 10); ("poor", 30); ("fair", 50); ("good", 70);
    ("very_good", 90) ]%Q.

Definition getScorePercent (c : call) : JS.value :=
  let leadScore := lead_score c in
  if negb (truthyScore leadScore) then JS.Num 30
  else
    match leadScore with
    | ScoreObject o => JS.Num (JS.orNum (percent o) (JS.orNum (score o) 30))
    | ScoreNumber q => JS.Num q
    | ScoreString s =>
        match JS.read scoreMap (JS.toLowerCase s) with
        | JS.Own v => JS.Num (if JS.truthyNum v then v else 30)
        | JS.Member m => JS.Proto m
        | JS.Undefined => JS.Num 30
        end
    | _ => JS.Num 30
    end.

Definition getTier (scorePercent : Q) : string :=
  if JS.ge scorePercent 80 then "very_good"
  else if JS.ge scorePercent 60 then "good"
  else if JS.ge scorePercent 40 then "fair"
  else if JS.ge scorePercent 20 then "poor"
  else "very_poor".

(** [call.transcription?.text || call.transcription || ''] *)
Definition transcriptText (t : transcript) : string :=
  match t with
  | NoTranscript => ""
  | TranscriptString s => s
  | TranscriptObject text =>
      if JS.truthyOptStr text then JS.orStr text "" else objectObject
  end.

(** [t.name || t] *)
Definition tagText (t : tag) : string :=
  match t with
  | TagString s => s
  | TagObject name =>
      if JS.truthyOptStr name then JS.orStr name "" else objectObject
  end.

Definition tagsOrEmpty (o : option (list tag)) : list tag :=
  match o with Some l => l | None => [] end.

Definition searchText (c : call) : string :=
  JS.toLowerCase
    (JS.join " "
       [ transcriptText (transcription c);
         JS.orStr (note c) "";
         JS.join " " (map tagText (tagsOrEmpty (tags c))) ]).

(** [/(\d+)\s*hp/i], [/(\d+)\s*horse\s*power/i], [/(\d+)\s*horsepower/i] *)
Definition hpPatterns : list JS.regex :=
  [ {| JS.re_nodes :=
         JS.GroupPlus JS.isDigit :: JS.Star JS.isSpace :: JS.lit "hp";
       JS.re_ignoreCase := true |};
    {| JS.re_nodes :=
         JS.GroupPlus JS.isDigit :: JS.Star JS.isSpace :: JS.lit "horse"
         ++ JS.Star JS.isSpace :: JS.lit "power";
       JS.re_ignoreCase := true |};
    {| JS.re_nodes :=
         JS.GroupPlus JS.isDigit :: JS.Star JS.isSpace
         :: JS.lit "horsepower";
       JS.re_ignoreCase := true |} ].

(** [if (CONFIG.products[hp])]: the catalog has a non-zero price for [hp]. *)
Definition inCatalog (hp : string) : bool :=
  JS.truthyOptNum (JS.get CONFIG.products hp).

(** The [for (const pattern of hpPatterns)] loop. *)
Fixpoint firstHit (patterns : list JS.regex) (text : string) : string :=
  match patterns with
  | [] => "default"
  | pattern :: rest =>
      match JS.exec pattern text with
      | Some (Some hp) => if inCatalog hp then hp else firstHit rest text
      | _ => firstHit rest text
      end
  end.

Definition detectProduct (c : call) : string :=
  firstHit hpPatterns (searchText c).

Definition normalizePhone (phone : option string) : string :=
  match phone with
  | Some p =>
      if JS.truthyStr p then JS.sliceLast 10 (JS.deleteAll JS.isNonDigit p)
      else "unknown"
  | None => "unknown"
  end.

(** *** Formatting *)

(** The local-time fields of a [Date]. *)
Record date : Type := {
  getFullYear : Z;
  getMonth : Z;
  getDate : Z;
  getHours : Z;
  getMinutes : Z;
  getSeconds : Z
}.

(** The record a conversion is pushed as. *)
Module Conversion.
Record t : Type := {
  gclid : string;
  conversionName : string;
  conversionTime : string;
  conversionValue : Q;
  currency : string;
  callId : option string;
  phone : string;
  tier : string;
  product : string;
  productPrice : Q;
  campaign : string;
  source : string;
  duration : Q;
  leadScore : Q
}.
End Conversion.

Record stats : Type := {
  totalCalls : nat;
  withGclid : nat;
  withValue : nat;
  zeroValue : nat;
  totalValue : Q
}.

(** What a run leaves in memory before it is rendered as CSV or JSON. *)
Record result : Type := {
  dateRange : Z * Z * Z;
  runStats : stats;
  conversions : list Conversion.t;
  uniqueCallers : nat
}.

(** The query parameters after [parseInt]; [None] is NaN. *)
Record query : Type := { hours : option Z; days : option Z }.

Definition orInt (o : option Z) (d : Z) : Z :=
  match o with
  | Some z => if Z.eqb z 0 then d else z
  | None => d
  end.

(** [Math.round(x * 100) / 100] *)
Definition round2 (x : Q) : Q := (inject_Z (JS.Math_round (x * 100)) / 100)%Q.

Definition group : Type := list (call * string).

(** One turn of the scan of a caller group for its best score and product.
    A score that is not a number compares false with every number. *)
Definition scan (best : Q * string) (entry : call * string) : Q * string :=
  let '(bestScore, bestProduct) := best in
  let '(call, _) := entry in
  let bestScore :=
    match getScorePercent call with
    | JS.Num score => if JS.gt score bestScore then score else bestScore
    | JS.Proto _ => bestScore
    end in
  let product := detectProduct call in
  let bestProduct :=
    if negb (String.eqb product "default") then product else bestProduct in
  (bestScore, bestProduct).

Definition best (g : group) : Q * string :=
  fold_left scan g (0%Q, "default").

Definition groupTier (g : group) : string := getTier (fst (best g)).

Definition groupPrice (g : group) : Q :=
  JS.orNum (JS.get CONFIG.products (snd (best g))) CONFIG.products_default.

Definition groupTotal (g : group) : Q :=
  let multiplier := JS.orNum (JS.get CONFIG.tiers (groupTier g)) 0 in
  round2 (groupPrice g * multiplier).

Definition perCall (g : group) : Q :=
  round2 (groupTotal g / inject_Z (Z.of_nat (List.length g))).

(** The first loop of the handler: calls with an identifier are counted
    and appended to the group of their normalized phone number, which is
    created on first use. *)
Definition collect (st : nat * list (string * group)) (c : call)
    : nat * list (string * group) :=
  let '(withGclid, callerGroups) := st in
  match extractGclid c with
  | Some gclid =>
      if JS.truthyStr gclid then
        let phone := normalizePhone (customer_phone_number c) in
        let members :=
          match JS.get callerGroups phone with
          | Some g => g
          | None => []
          end in
        (S withGclid, JS.assign callerGroups phone (members ++ [(c, gclid)]))
      else st
  | None => st
  end.

Section Host.
(** [new Date(isoString)] read through its local-time getters, as the
    host's time zone gives them; [None] is an invalid date. *)
Variable newDate : option string -> option date.

Definition two (n : Z) : string := JS.padStart 2 "0" (JS.stringOfInt n).

Definition formatGoogleAdsTime (isoString : option string) : string :=
  match newDate isoString with
  | Some d =>
      (JS.stringOfInt (getFullYear d) ++ "-" ++ two (getMonth d + 1)
       ++ "-" ++ two (getDate d) ++ " " ++ two (getHours d) ++ ":"
       ++ two (getMinutes d) ++ ":" ++ two (getSeconds d) ++ "-0700")%string
  | None => "NaN-NaN-NaN NaN:NaN:NaN-0700"
  end.

(** The object pushed for one call of a group. *)
Definition conversionOf (g : group) (entry : call * string)
    : Conversion.t :=
  let '(call, gclid) := entry in
  {| Conversion.gclid := gclid;
     Conversion.conversionName := "Phone Call";
     Conversion.conversionTime := formatGoogleAdsTime (start_time call);
     Conversion.conversionValue := perCall g;
     Conversion.currency := "USD";
     Conversion.callId := id call;
     Conversion.phone := JS.orStr (customer_phone_number call) "";
     Conversion.tier := groupTier g;
     Conversion.product := snd (best g);
     Conversion.productPrice := groupPrice g;
     Conversion.campaign := JS.orStr (campaign call) "";
     Conversion.source := JS.orStr (source call) "";
     Conversion.duration := JS.orNum (duration call) 0;
     Conversion.leadScore := fst (best g) |}.

(** The inner loop over the calls of a valued group. *)
Definition emit (g : group) (st : stats * list Conversion.t)
    (entry : call * string) : stats * list Conversion.t :=
  let '(s, out) := st in
  ({| totalCalls := totalCalls s;
      withGclid := withGclid s;
      withValue := S (withValue s);
      zeroValue := zeroValue s;
      totalValue := (totalValue s + perCall g)%Q |},
   out ++ [conversionOf g entry]).

(** The body of the loop over the caller groups. *)
Definition processGroup (st : stats * list Conversion.t) (g : group)
    : stats * list Conversion.t :=
  if JS.le (groupTotal g) 0 then
    let '(s, out) := st in
    ({| totalCalls := totalCalls s;
        withGclid := withGclid s;
        withValue := withValue s;
        zeroValue := zeroValue s + List.length g;
        totalValue := totalValue s |},
     out)
  else fold_left (emit g) g st.

(** From the fetched calls to the statistics, the conversions and the
    dictionary of caller groups. *)
Definition process (calls : list call)
    : stats * list Conversion.t * list (string * group) :=
  let '(n, callerGroups) := fold_left collect calls (0, []) in
  let start :=
    {| totalCalls := List.length calls; withGclid := n; withValue := 0;
       zeroValue := 0; totalValue := 0 |} in
  (fold_left processGroup (map snd (JS.forIn callerGroups)) (start, []),
   callerGroups).

(** The handler: [now] is the clock at the start of the run ([new Date()])
    and [fetchAllCalls] the answer of the provider for a date range. *)
Definition handler (now : Z) (params : query)
    (fetchAllCalls : Z -> Z -> list call) : result :=
  let hoursBack := orInt (hours params) (orInt (days params) 7 * 24) in
  let endDate := now in
  let startDate := (endDate - hoursBack * 60 * 60 * 1000)%Z in
  let calls := fetchAllCalls startDate endDate in
  let '(s, out, callerGroups) := process calls in
  {| dateRange := (startDate, endDate, hoursBack);
     runStats := s;
     conversions := out;
     uniqueCallers := List.length callerGroups |}.
End Host.

(** *** Fetching the calls *)

(** The answer of the provider to the request for one page: a status that
    is not a success, or a body whose [calls] field may be absent. *)
Inductive response : Type :=
| NotOk (status : Z) (statusText : string)
| Ok (calls : option (list call)).

(** How [fetchAllCalls] ends: with all the calls, or by throwing. *)
Inductive outcome : Type :=
| Calls (allCalls : list call)
| Thrown (message : string).

(** The [while (hasMore)] loop; [fuel] bounds the number of turns and
    [None] is a loop that has not ended within it. *)
Fixpoint fetchLoop (fuel : nat) (provider : nat -> response) (page : nat)
    (allCalls : list call) : option outcome :=
  match fuel with
  | O => None
  | S fuel' =>
      match provider page with
      | NotOk status statusText =>
          Some (Thrown ("CallRail API error: " ++ JS.stringOfInt status
                        ++ " " ++ statusText)%string)
      | Ok data =>
          let calls := match data with Some l => l | None => [] end in
          let allCalls := allCalls ++ calls in
          if (List.length calls <? 250) || (10 <=? page)
          then Some (Calls allCalls)
          else fetchLoop fuel' provider (S page) allCalls
      end
  end.

(** [fetchAllCalls(startDate, endDate)], the provider being its answers for
    that date range, page by page; ten turns are enough. *)
Definition fetchAllCalls (provider : nat -> response) : option outcome :=
  fetchLoop 10 provider 1 [].


Section Serve.
Variable newDate : option string -> option date.

End Serve.

End CsvExport.

(** ** The spreadsheet sync (every call valued on its own) *)

Module SheetsSync.
Import CallRail.

(** The catalog and the multipliers are written out again in this file,
    with the same entries. *)
Module CONFIG.
Definition products_default : Q := 3500.

Definition products : list (string * Q) :=
  [ ("3", 895); ("5", 1095); ("7", 1395); ("10", 1995);
    ("15", 2495); ("20", 2995); ("25", 3495); ("30", 3995);
    ("40", 4995); ("50", 5995); ("60", 6995); ("75", 8495);
    ("100", 10995); ("default", products_default) ]%Q.

Definition tiers : list (string * Q) :=
  [ ("very_poor", 0); ("poor", 0.25); ("fair", 0.50); ("good", 0.75);
    ("very_good", 1.0) ]%Q.
End CONFIG.

(** [call.transcription?.text || ''] *)
Definition transcriptText (t : transcript) : string :=
  match t with
  | TranscriptObject text => JS.orStr text ""
  | _ => ""
  end.

Definition searchText (c : call) : string :=
  JS.toLowerCase
    (JS.join " "
       [ transcriptText (transcription c);
         JS.orStr (note c) "";
         JS.join " "
           (map CsvExport.tagText (CsvExport.tagsOrEmpty (tags c))) ]).

Definition inCatalog (hp : string) : bool :=
  JS.truthyOptNum (JS.get CONFIG.products hp).

Fixpoint firstHit (patterns : list JS.regex) (text : string) : string :=
  match patterns with
  | [] => "default"
  | pattern :: rest =>
      match JS.exec pattern text with
      | Some (Some hp) => if inCatalog hp then hp else firstHit rest text
      | _ => firstHit rest text
      end
  end.

(** The three patterns are those of the CSV export. *)
Definition detectProduct (c : call) : string :=
  firstHit CsvExport.hpPatterns (searchText c).

(** What [calculateValue] returns; [leadScore] keeps the two values its
    template [`${scoreValue} (${scorePercent}%)`] prints. *)
Module ValueData.
Record t : Type := {
  value : Q;
  tier : string;
  leadScore : string * Q;
  product : string;
  productPrice : Q;
  multiplier : Q
}.
End ValueData.

(** [(call.lead_score || {}).value || 'unknown'] *)
Definition scoreValue (c : call) : string :=
  match lead_score c with
  | ScoreObject o => JS.orStr (CallRail.value o) "unknown"
  | _ => "unknown"
  end.

(** [(call.lead_score || {}).percent || 0] *)
Definition scorePercent (c : call) : Q :=
  match lead_score c with
  | ScoreObject o => JS.orNum (percent o) 0
  | _ => 0
  end.

Definition tierOf (scoreValue : string) (scorePercent : Q) : string :=
  let tier := "poor" in
  if String.eqb scoreValue "very_poor" || JS.lt scorePercent 20
  then "very_poor"
  else if String.eqb scoreValue "poor" || JS.lt scorePercent 40
  then "poor"
  else if String.eqb scoreValue "fair" || JS.lt scorePercent 60
  then "fair"
  else if String.eqb scoreValue "good" || JS.lt scorePercent 80
  then "good"
  else if String.eqb scoreValue "very_good" || JS.ge scorePercent 80
  then "very_good"
  else tier.

Definition calculateValue (c : call) : ValueData.t :=
  let tier := tierOf (scoreValue c) (scorePercent c) in
  let product := detectProduct c in
  let productPrice :=
    JS.orNum (JS.get CONFIG.products product) CONFIG.products_default in
  let multiplier := JS.orNum (JS.get CONFIG.tiers tier) 0 in
  let value := CsvExport.round2 (productPrice * multiplier) in
  {| ValueData.value := value;
     ValueData.tier := tier;
     ValueData.leadScore := (scoreValue c, scorePercent c);
     ValueData.product := product;
     ValueData.productPrice := productPrice;
     ValueData.multiplier := multiplier |}.

(** *** The handler *)

(** The record a conversion is pushed as; [leadScore] keeps the two values
    of its template, and [rawCallData], a JSON rendering of three fields of
    the call, is left out. *)
Module Conversion.
Record t : Type := {
  gclid : string;
  callId : option string;
  conversionTime : string;
  conversionValue : Q;
  currency : string;
  phone : string;
  leadScore : string * Q;
  tier : string;
  detectedProduct : string;
  productPrice : Q;
  campaign : string;
  source : string;
  duration : Q
}.
End Conversion.

(** The query parameters: [hours] after [parseInt] ([None] is NaN) and
    [dry_run] as sent. *)
Record query : Type := { hours : option Z; dry_run : option string }.

(** What a run leaves in memory and reports. *)
Record result : Type := {
  dryRun : bool;
  runStats : CsvExport.stats;
  conversions : list Conversion.t;
  rowsWritten : nat
}.

Section Host.
Variable newDate : option string -> option CsvExport.date.

Definition formatGoogleAdsTime (isoString : option string) : string :=
  match newDate isoString with
  | Some d =>
      (JS.stringOfInt (CsvExport.getFullYear d) ++ "-"
       ++ CsvExport.two (CsvExport.getMonth d + 1) ++ "-"
       ++ CsvExport.two (CsvExport.getDate d) ++ " "
       ++ CsvExport.two (CsvExport.getHours d) ++ ":"
       ++ CsvExport.two (CsvExport.getMinutes d) ++ ":"
       ++ CsvExport.two (CsvExport.getSeconds d) ++ "-07:00")%string
  | None => "NaN-NaN-NaN NaN:NaN:NaN-07:00"
  end.

(** The body of the loop over the calls; [extractGclid] is written out in
    this file as in the CSV export. *)
Definition step (st : CsvExport.stats * list Conversion.t) (c : call)
    : CsvExport.stats * list Conversion.t :=
  let '(s, out) := st in
  match CsvExport.extractGclid c with
  | Some gclid =>
      if JS.truthyStr gclid then
        let valueData := calculateValue c in
        if JS.le (ValueData.value valueData) 0 then
          ({| CsvExport.totalCalls := CsvExport.totalCalls s;
              CsvExport.withGclid := S (CsvExport.withGclid s);
              CsvExport.withValue := CsvExport.withValue s;
              CsvExport.zeroValue := S (CsvExport.zeroValue s);
              CsvExport.totalValue := CsvExport.totalValue s |},
           out)
        else
          ({| CsvExport.totalCalls := CsvExport.totalCalls s;
              CsvExport.withGclid := S (CsvExport.withGclid s);
              CsvExport.withValue := S (CsvExport.withValue s);
              CsvExport.zeroValue := CsvExport.zeroValue s;
              CsvExport.totalValue :=
                (CsvExport.totalValue s + ValueData.value valueData)%Q |},
           out
           ++ [ {| Conversion.gclid := gclid;
                   Conversion.callId := id c;
                   Conversion.conversionTime :=
                     formatGoogleAdsTime (start_time c);
                   Conversion.conversionValue := ValueData.value valueData;
                   Conversion.currency := "USD";
                   Conversion.phone :=
                     JS.orStr (customer_phone_number c) "";
                   Conversion.leadScore := ValueData.leadScore valueData;
                   Conversion.tier := ValueData.tier valueData;
                   Conversion.detectedProduct :=
                     ValueData.product valueData;
                   Conversion.productPrice :=
                     ValueData.productPrice valueData;
                   Conversion.campaign := JS.orStr (campaign c) "";
                   Conversion.source := JS.orStr (CallRail.source c) "";
                   Conversion.duration := JS.orNum (duration c) 0 |} ])
      else st
  | None => st
  end.

(** From the fetched calls to the statistics and the conversions. *)
Definition process (calls : list call)
    : CsvExport.stats * list Conversion.t :=
  fold_left step calls
    ({| CsvExport.totalCalls := List.length calls;
        CsvExport.withGclid := 0;
        CsvExport.withValue := 0;
        CsvExport.zeroValue := 0;
        CsvExport.totalValue := 0 |}, []).

(** The handler on a run whose fetch and whose write to the sheet succeed:
    [writeToGoogleSheets] appends one row per conversion and reports their
    number. *)
Definition handler (params : query) (calls : list call) : result :=
  let dryRun :=
    match dry_run params with
    | Some v => String.eqb v "true"
    | None => false
    end in
  let '(s, out) := process calls in
  let rowsWritten :=
    if negb dryRun && (0 <? List.length out) then List.length out else 0 in
  {| dryRun := dryRun;
     runStats := s;
     conversions := out;
     rowsWritten := rowsWritten |}.
End Host.

End SheetsSync.

(** ** The Google Ads script (the importer of the sheet) *)

Module GoogleAdsScript.

(** The cells of a row of the sheet that decide what the script does:
    columns A ([gclid]), E ([callId]) and K ([imported]), as strings; an
    empty cell is the empty string.  The cells of the columns B to D only
    feed the conversion that is logged. *)
Record row : Type := {
  gclid : string;
  callId : string;
  imported : string
}.

(** [CONFIG.batchSize] *)
Definition batchSize : nat := 100.

(** [!gclid || alreadyImported === 'IMPORTED'] *)
Definition skipped (r : row) : bool :=
  negb (JS.truthyStr (gclid r)) || String.eqb (imported r) "IMPORTED".

(** The loop that collects the rows to import, from [data[i]] on; a row is
    pushed with its 1-based row index [i + 1]. *)
Fixpoint selectFrom (i : nat) (rows : list row)
    (toImport : list (nat * row)) : list (nat * row) :=
  match rows with
  | [] => toImport
  | r :: rest =>
      if List.length toImport <? batchSize then
        if skipped r then selectFrom (S i) rest toImport
        else selectFrom (S i) rest (toImport ++ [(i + 1, r)])
      else toImport
  end.

(** The loop starts at [i = 1]: the header row is never read. *)
Definition select (data : list row) : list (nat * row) :=
  selectFrom 1 (tl data) [].

(** [uploadConversion]: [None] is [{ success: true }], [Some error] is
    [{ success: false, error }].  Nothing is sent: with [AdsApp] at hand
    the conversion is logged and reported as a success. *)
Definition uploadConversion (adsApp : bool) (conv : nat * row)
    : option string :=
  if adsApp then None else Some "AdsApp not available".

(** [sheet.getRange(index + 1, 11).setValue(v)] *)
Fixpoint setImported (sheet : list row) (index : nat) (v : string)
    : list row :=
  match sheet, index with
  | [], _ => []
  | r :: rest, O =>
      {| gclid := gclid r; callId := callId r; imported := v |} :: rest
  | r :: rest, S n => r :: setImported rest n v
  end.

Record results : Type := {
  success : nat;
  failed : nat;
  errors : list (string * string)
}.

(** One turn of the loop over the conversions to import. *)
Definition importOne (adsApp : bool) (st : list row * results)
    (conv : nat * row) : list row * results :=
  let '(sheet, res) := st in
  match uploadConversion adsApp conv with
  | None =>
      (setImported sheet (fst conv - 1) "IMPORTED",
       {| success := S (success res); failed := failed res;
          errors := errors res |})
  | Some error =>
      (setImported sheet (fst conv - 1) ("ERROR: " ++ error),
       {| success := success res; failed := S (failed res);
          errors := errors res ++ [(callId (snd conv), error)] |})
  end.

(** [main] on a sheet that exists: the sheet it leaves and the results it
    mails, [None] when there was nothing to import.  The log and the text
    of the mail are left out. *)
Definition main (adsApp : bool) (data : list row)
    : list row * option results :=
  let toImport := select data in
  if List.length toImport =? 0 then (data, None)
  else
    let '(sheet, res) :=
      fold_left (importOne adsApp) toImport
        (data, {| success := 0; failed := 0; errors := [] |}) in
    (sheet, Some res).

(** [(n < 10 ? '0' : '') + n] *)
Definition padZero (n : Z) : string :=
  ((if (n <? 10)%Z then "0" else "") ++ JS.stringOfInt n)%string.

(** What the cell of the conversion time holds. *)
Inductive cell : Type :=
| CellDate (d : option CsvExport.date)
| CellString (s : string)
| CellOther.

Section Host.
Variable newDate : option string -> option CsvExport.date.
(** [new Date()], the clock read in local time. *)
Variable today : CsvExport.date.

Definition formatDateTime (input : cell) : string :=
  let date :=
    match input with
    | CellDate d => d
    | CellString s => newDate (Some s)
    | CellOther => Some today
    end in
  match date with
  | Some d =>
      (JS.stringOfInt (CsvExport.getFullYear d) ++ "-"
       ++ padZero (CsvExport.getMonth d + 1) ++ "-"
       ++ padZero (CsvExport.getDate d) ++ " "
       ++ padZero (CsvExport.getHours d) ++ ":"
       ++ padZero (CsvExport.getMinutes d) ++ ":"
       ++ padZero (CsvExport.getSeconds d) ++ "-07:00")%string
  | None => "NaN-NaN-NaN NaN:NaN:NaN-07:00"
  end.
End Host.

End GoogleAdsScript.

(** * Properties *)

Import CallRail.

(** ** Numbers *)

Lemma ge_true (a b : Q) : JS.ge a b = true <-> (b <= a)%Q.
Proof. unfold JS.ge. apply Qle_bool_iff. Qed.

Lemma ge_false (a b : Q) : JS.ge a b = false <-> (a < b)%Q.
Proof.
  unfold JS.ge. split; intro H.
  - apply Qnot_le_lt. intro L. apply Qle_bool_iff in L. congruence.
  - destruct (Qle_bool b a) eqn:E; [|reflexivity].
    apply Qle_bool_iff in E. exfalso. apply (Qlt_not_le _ _ H E).
Qed.

Lemma gt_true (a b : Q) : JS.gt a b = true <-> (b < a)%Q.
Proof.
  unfold JS.gt. rewrite negb_true_iff. apply (ge_false b a).
Qed.

Lemma gt_false (a b : Q) : JS.gt a b = false <-> (a <= b)%Q.
Proof.
  unfold JS.gt. rewrite negb_false_iff. apply Qle_bool_iff.
Qed.

Lemma lt_true (a b : Q) : JS.lt a b = true <-> (a < b)%Q.
Proof. unfold JS.lt. rewrite negb_true_iff. apply (ge_false a b). Qed.

Lemma lt_false (a b : Q) : JS.lt a b = false <-> (b <= a)%Q.
Proof. unfold JS.lt. rewrite negb_false_iff. apply Qle_bool_iff. Qed.

Lemma le_true (a b : Q) : JS.le a b = true <-> (a <= b)%Q.
Proof. unfold JS.le. apply Qle_bool_iff. Qed.

Lemma le_false (a b : Q) : JS.le a b = false <-> (b < a)%Q.
Proof. apply (ge_false b a). Qed.

(** ** The tier classifier *)

Lemma getTier_very_poor (p : Q) :
  (p < 20)%Q -> CsvExport.getTier p = "very_poor".
Proof.
  intro H. unfold CsvExport.getTier.
  assert (H3 : JS.ge p 80 = false) by (apply ge_false; lra).
  assert (H4 : JS.ge p 60 = false) by (apply ge_false; lra).
  assert (H5 : JS.ge p 40 = false) by (apply ge_false; lra).
  apply ge_false in H. now rewrite H3, H4, H5, H.
Qed.

(** C2: [getTier] returns very_good from 80 up, good on [60, 80), fair on
    [40, 60), poor on [20, 40) and very_poor below 20; the lower bound of
    every band belongs to it, so 20 is poor and 80 is very_good. *)
Theorem getTier_bands (p : Q) :
  ((80 <= p)%Q -> CsvExport.getTier p = "very_good")
  /\ ((60 <= p)%Q /\ (p < 80)%Q -> CsvExport.getTier p = "good")
  /\ ((40 <= p)%Q /\ (p < 60)%Q -> CsvExport.getTier p = "fair")
  /\ ((20 <= p)%Q /\ (p < 40)%Q -> CsvExport.getTier p = "poor")
  /\ ((p < 20)%Q -> CsvExport.getTier p = "very_poor")
  /\ CsvExport.getTier 20 = "poor"
  /\ CsvExport.getTier 80 = "very_good".
Proof.
  unfold CsvExport.getTier.
  repeat split; try reflexivity.
  - intro H. apply ge_true in H. now rewrite H.
  - intros [H1 H2]. apply ge_false in H2. apply ge_true in H1.
    now rewrite H2, H1.
  - intros [H1 H2].
    assert (H3 : JS.ge p 80 = false) by (apply ge_false; lra).
    apply ge_false in H2. apply ge_true in H1.
    now rewrite H3, H2, H1.
  - intros [H1 H2].
    assert (H3 : JS.ge p 80 = false) by (apply ge_false; lra).
    assert (H4 : JS.ge p 60 = false) by (apply ge_false; lra).
    apply ge_false in H2. apply ge_true in H1.
    now rewrite H3, H4, H2, H1.
  - apply getTier_very_poor.
Qed.

Lemma getTier_bands_witness :
  CsvExport.getTier 85 = "very_good"
  /\ CsvExport.getTier 79.5 = "good"
  /\ CsvExport.getTier 40 = "fair"
  /\ CsvExport.getTier 39 = "poor"
  /\ CsvExport.getTier (-3) = "very_poor".
Proof.
  split; [apply (getTier_bands 85); lra |].
  split; [apply (getTier_bands 79.5); lra |].
  split; [apply (getTier_bands 40); lra |].
  split; [apply (getTier_bands 39); lra |].
  apply (getTier_bands (-3)); lra.
Defined.

(** The multiplier of every tier, and the example of the specification:
    the score "Good" is 70 percent, tier good, multiplier 0.75. *)
Lemma tier_multipliers :
  map (fun t => JS.orNum (JS.get CsvExport.CONFIG.tiers t) 0)
    ["very_poor"; "poor"; "fair"; "good"; "very_good"]
  = [0; 0.25; 0.50; 0.75; 1.0]%Q
  /\ CsvExport.getScorePercent (withScore blank (ScoreString "Good"))
     = JS.Num 70
  /\ CsvExport.getTier 70 = "good"
  /\ JS.orNum (JS.get CsvExport.CONFIG.tiers (CsvExport.getTier 70)) 0
     = 0.75%Q.
Proof. repeat split. Qed.

(** ** The lead scorer *)


(** The strings the score dictionary knows, after lower-casing. *)
Lemma scoreMap_entries (s : string) (v : Q) :
  JS.get CsvExport.scoreMap s = Some v <->
  (s = "very_poor" /\ v = 10%Q) \/ (s = "poor" /\ v = 30%Q)
  \/ (s = "fair" /\ v = 50%Q) \/ (s = "good" /\ v = 70%Q)
  \/ (s = "very_good" /\ v = 90%Q).
Proof.
  unfold CsvExport.scoreMap. cbn [JS.get]. split.
  - repeat match goal with
           | |- context [String.eqb ?a s] =>
               destruct (String.eqb_spec a s) as [<- | ?]
           end; intro H; inversion H; subst; tauto.
  - intros [[-> ->] | [[-> ->] | [[-> ->] | [[-> ->] | [-> ->]]]]];
      reflexivity.
Qed.

(** What [getScorePercent] returns on every shape of lead score that does
    not run into a member of [Object.prototype]. *)
Lemma getScorePercent_cases (c : call) :
  (truthyScore (lead_score c) = false ->
   CsvExport.getScorePercent c = JS.Num 30)
  /\ (forall o, lead_score c = ScoreObject o ->
      CsvExport.getScorePercent c
      = JS.Num (JS.orNum (percent o) (JS.orNum (score o) 30)))
  /\ (forall q, lead_score c = ScoreNumber q -> JS.truthyNum q = true ->
      CsvExport.getScorePercent c = JS.Num q)
  /\ (forall s v, lead_score c = ScoreString s ->
      JS.get CsvExport.scoreMap (JS.toLowerCase s) = Some v ->
      CsvExport.getScorePercent c = JS.Num v)
  /\ (forall s, lead_score c = ScoreString s ->
      JS.get CsvExport.scoreMap (JS.toLowerCase s) = None ->
      JS.inherited (JS.toLowerCase s) = false ->
      CsvExport.getScorePercent c = JS.Num 30).
Proof.
  unfold CsvExport.getScorePercent. repeat split.
  - intros ->. reflexivity.
  - intros o ->. reflexivity.
  - intros q -> H. cbn. now rewrite H.
  - intros s v -> H.
    destruct s as [|a s]; [apply scoreMap_entries in H; cbn in H;
      intuition discriminate|].
    cbn [truthyScore JS.truthyStr negb]. unfold JS.read. rewrite H.
    apply scoreMap_entries in H.
    destruct H as [[_ ->] | [[_ ->] | [[_ ->] | [[_ ->] | [_ ->]]]]];
      reflexivity.
  - intros s -> H I.
    destruct s as [|a s]; [reflexivity|].
    cbn [truthyScore JS.truthyStr negb]. unfold JS.read. now rewrite H, I.
Qed.

(** C4: on the lead score "constructor" the lookup in the score dictionary
    finds the member every object inherits, which is truthy, so the
    fallback to 30 is not taken and the result is not a number. *)
Theorem getScorePercent_inherited_key :
  CsvExport.getScorePercent (withScore blank (ScoreString "constructor"))
  = JS.Proto "constructor"
  /\ CsvExport.getScorePercent (withScore blank (ScoreString "Constructor"))
     <> JS.Num 30
  /\ CsvExport.getScorePercent (withScore blank (ScoreString "Good"))
     = JS.Num 70
  /\ CsvExport.getScorePercent (withScore blank (ScoreString "excellent"))
     = JS.Num 30.
Proof. repeat split. discriminate. Qed.

(** ** Phone normalization *)

Lemma deleteAll_only_digits (p : string) :
  JS.forallChars JS.isDigit (JS.deleteAll JS.isNonDigit p) = true.
Proof.
  induction p as [|a p IH]; [reflexivity|].
  cbn [JS.deleteAll]. unfold JS.isNonDigit at 1.
  destruct (JS.isDigit a) eqn:E; cbn [negb]; [|exact IH].
  cbn [JS.forallChars]. now rewrite E, IH.
Qed.

Lemma drop_forallChars (q : ascii -> bool) (n : nat) (s : string) :
  JS.forallChars q s = true -> JS.forallChars q (JS.drop n s) = true.
Proof.
  revert s. induction n as [|n IH]; intros [|a s] H; cbn; try assumption.
  apply IH. cbn in H. now apply andb_true_iff in H.
Qed.

Lemma normalizePhone_digits (p : string) :
  JS.truthyStr p = true ->
  JS.forallChars JS.isDigit (CsvExport.normalizePhone (Some p)) = true.
Proof.
  intro H. unfold CsvExport.normalizePhone. rewrite H.
  apply drop_forallChars, deleteAll_only_digits.
Qed.

Lemma deleteAll_no_digit (p : string) :
  (forall i a, String.get i p = Some a -> JS.isDigit a = false) ->
  JS.deleteAll JS.isNonDigit p = "".
Proof.
  induction p as [|a p IH]; intro H; [reflexivity|].
  cbn [JS.deleteAll]. unfold JS.isNonDigit at 1.
  rewrite (H 0 a eq_refl). cbn [negb].
  apply IH. intros i b G. apply (H (S i) b G).
Qed.

(** C10: a phone that is not empty and holds no digit normalizes to the
    empty string, not to "unknown": a call with such a phone and a call
    without a phone land in two groups, keyed "" and "unknown".  Only an
    absent or empty phone gives "unknown". *)
Theorem normalizePhone_no_digits (p : string) (c u : call) (gc gu : string) :
  p <> "" ->
  (forall i a, String.get i p = Some a -> JS.isDigit a = false) ->
  customer_phone_number c = Some p ->
  JS.truthyOptStr (customer_phone_number u) = false ->
  CsvExport.extractGclid c = Some gc -> JS.truthyStr gc = true ->
  CsvExport.extractGclid u = Some gu -> JS.truthyStr gu = true ->
  CsvExport.normalizePhone (Some p) = ""
  /\ CsvExport.normalizePhone (Some p) <> "unknown"
  /\ snd (fold_left CsvExport.collect [c; u] (0, []))
     = [("", [(c, gc)]); ("unknown", [(u, gu)])]
  /\ (forall o, CsvExport.normalizePhone o = "unknown"
                <-> JS.truthyOptStr o = false).
Proof.
  intros Hp Hd Hc Hu Gc Tc Gu Tu.
  assert (E : CsvExport.normalizePhone (Some p) = "").
  { unfold CsvExport.normalizePhone.
    destruct p as [|a p]; [congruence|]. cbn [JS.truthyStr].
    now rewrite (deleteAll_no_digit _ Hd). }
  assert (U : CsvExport.normalizePhone (customer_phone_number u) = "unknown").
  { unfold CsvExport.normalizePhone.
    destruct (customer_phone_number u) as [s|]; [|reflexivity].
    cbn in Hu. now rewrite Hu. }
  split; [exact E|]. split; [rewrite E; discriminate|]. split.
  - cbn [fold_left]. unfold CsvExport.collect at 2.
    rewrite Gc, Tc, Hc, E. cbn [JS.get JS.assign app].
    unfold CsvExport.collect. rewrite Gu, Tu, U. reflexivity.
  - intros [s|]; [|split; reflexivity].
    cbn [JS.truthyOptStr]. split.
    + intro N. destruct (JS.truthyStr s) eqn:T; [|reflexivity].
      pose proof (normalizePhone_digits s T) as D.
      rewrite N in D. discriminate D.
    + intro T. unfold CsvExport.normalizePhone. now rewrite T.
Qed.

Lemma normalizePhone_no_digits_witness :
  CsvExport.normalizePhone (Some "---") = ""
  /\ CsvExport.normalizePhone (Some "---") <> "unknown"
  /\ snd (fold_left CsvExport.collect
            [ withGclid (withPhone blank (Some "---")) "abc";
              withGclid blank "xyz" ] (0, []))
     = [ ("", [(withGclid (withPhone blank (Some "---")) "abc", "abc")]);
         ("unknown", [(withGclid blank "xyz", "xyz")]) ]
  /\ (forall o, CsvExport.normalizePhone o = "unknown"
                <-> JS.truthyOptStr o = false).
Proof.
  apply (normalizePhone_no_digits "---"); try reflexivity.
  - discriminate.
  - intros [|[|[|i]]] a G; cbn in G; inversion G; reflexivity.
Defined.

(** The example of the specification: two spellings of one number. *)
Lemma normalizePhone_example :
  CsvExport.normalizePhone (Some "(555) 123-4567") = "5551234567"
  /\ CsvExport.normalizePhone (Some "555.123.4567") = "5551234567"
  /\ CsvExport.normalizePhone (Some "+1 (555) 123-4567") = "5551234567".
Proof. repeat split. Qed.

(** ** The two variants *)








(** ** Regular expression search *)

Lemma backtrack_some {A : Type} (least : nat) (cont : nat -> option A)
    (k : nat) (r : A) :
  JS.backtrack least cont k = Some r ->
  exists j, least <= j <= k /\ cont j = Some r
            /\ forall i, j < i <= k -> cont i = None.
Proof.
  induction k as [|k IH]; cbn [JS.backtrack].
  - destruct (0 <? least) eqn:L; [discriminate|].
    apply Nat.ltb_ge in L. destruct (cont 0) eqn:C; [|discriminate].
    intro E. injection E as ->. exists 0. repeat split; try lia.
    exact C.
  - destruct (S k <? least) eqn:L; [discriminate|].
    apply Nat.ltb_ge in L. destruct (cont (S k)) eqn:C.
    + intro E. injection E as ->. exists (S k).
      repeat split; try lia. exact C.
    + intro E. destruct (IH E) as (j & B & Cj & Above).
      assert (J : j <= k).
      { destruct B as [_ B]. exact B. }
      exists j. repeat split; try lia; [exact Cj|].
      intros i Hi. destruct (Nat.eq_dec i (S k)) as [-> | N]; [exact C|].
      apply Above. lia.
Qed.

Lemma take_drop (n : nat) (s : string) :
  (JS.take n s ++ JS.drop n s)%string = s.
Proof.
  revert s. induction n as [|n IH]; intros [|a s]; cbn; try reflexivity.
  now rewrite IH.
Qed.

Lemma take_span (p : ascii -> bool) (s : string) (k : nat) :
  k <= JS.span p s -> JS.forallChars p (JS.take k s) = true.
Proof.
  revert k. induction s as [|a s IH]; intros [|k] H; try reflexivity.
  cbn [JS.span] in H. destruct (p a) eqn:P; [|lia].
  cbn [JS.take JS.forallChars]. rewrite P. apply IH. lia.
Qed.

Lemma take_nonempty (p : ascii -> bool) (s : string) (k : nat) :
  1 <= k <= JS.span p s -> JS.take k s <> "".
Proof.
  destruct s as [|a s]; cbn [JS.span]; [lia|].
  destruct k; [lia|]. discriminate.
Qed.

(** The capture of a match is the one it started with, or a non-empty run
    of characters of the class of a group of the pattern. *)
Lemma matchHere_capture (ic : bool) (ns : list JS.node) :
  forall (s : string) (cap r : option string),
    JS.matchHere ic ns s cap = Some r ->
    r = cap
    \/ exists p d,
         In (JS.GroupPlus p) ns /\ r = Some d /\ d <> ""
         /\ JS.forallChars p d = true.
Proof.
  induction ns as [|n ns IH]; intros s cap r; cbn [JS.matchHere].
  - intro E. injection E as <-. now left.
  - destruct n as [c | p | p | p].
    + destruct s as [|a s]; [discriminate|].
      destruct (JS.charEq ic c a); [|discriminate].
      intro E. destruct (IH _ _ _ E) as [-> | (q & d & I & R)];
        [now left | right; exists q, d; split; [now right | exact R]].
    + destruct s as [|a s]; [discriminate|].
      destruct (p a); [|discriminate].
      intro E. destruct (IH _ _ _ E) as [-> | (q & d & I & R)];
        [now left | right; exists q, d; split; [now right | exact R]].
    + intro E. apply backtrack_some in E. destruct E as (j & _ & E & _).
      destruct (IH _ _ _ E) as [-> | (q & d & I & R)];
        [now left | right; exists q, d; split; [now right | exact R]].
    + intro E. apply backtrack_some in E. destruct E as (j & B & E & _).
      destruct (IH _ _ _ E) as [-> | (q & d & I & R)].
      * right. exists p, (JS.take j s). split; [now left|].
        split; [reflexivity|]. split.
        -- now apply (take_nonempty p).
        -- apply take_span. lia.
      * right. exists q, d. split; [now right | exact R].
Qed.

(** [exec] returns the match at the leftmost position that has one. *)
Lemma exec_leftmost (r : JS.regex) (s : string) (m : option string) :
  JS.exec r s = Some m ->
  exists n,
    n <= String.length s
    /\ JS.matchHere (JS.re_ignoreCase r) (JS.re_nodes r) (JS.drop n s) None
       = Some m
    /\ forall j, j < n ->
         JS.matchHere (JS.re_ignoreCase r) (JS.re_nodes r) (JS.drop j s) None
         = None.
Proof.
  induction s as [|a s IH]; cbn [JS.exec].
  - destruct (JS.matchHere _ _ "" None) eqn:E; [|discriminate].
    intro X. injection X as ->. exists 0. repeat split; [lia | exact E | lia].
  - destruct (JS.matchHere _ _ (String a s) None) eqn:E.
    + intro X. injection X as ->. exists 0.
      repeat split; [lia | exact E | lia].
    + intro X. destruct (IH X) as (n & L & M & Before).
      exists (S n). cbn [String.length JS.drop].
      repeat split; [lia | exact M |].
      intros [|j] J; [exact E | apply Before; lia].
Qed.

Lemma exec_none (r : JS.regex) (s : string) :
  JS.exec r s = None ->
  forall j,
    JS.matchHere (JS.re_ignoreCase r) (JS.re_nodes r) (JS.drop j s) None
    = None.
Proof.
  induction s as [|a s IH]; cbn [JS.exec].
  - destruct (JS.matchHere _ _ "" None) eqn:E; [discriminate|].
    intros _ [|j]; exact E.
  - destruct (JS.matchHere _ _ (String a s) None) eqn:E; [discriminate|].
    intros X [|j]; [exact E | apply (IH X)].
Qed.

(** The capture of a horsepower pattern is a non-empty string of digits. *)
Lemma hp_capture_digits (pattern : JS.regex) (text hp : string) :
  In pattern CsvExport.hpPatterns ->
  JS.exec pattern text = Some (Some hp) ->
  hp <> "" /\ JS.forallChars JS.isDigit hp = true.
Proof.
  intros I E. apply exec_leftmost in E. destruct E as (n & _ & M & _).
  apply matchHere_capture in M.
  destruct M as [M | (p & d & G & D & Ne & Fa)]; [discriminate|].
  injection D as ->.
  assert (P : p = JS.isDigit).
  { cbn in I. destruct I as [<- | [<- | [<- | []]]]; cbn in G;
      repeat (destruct G as [G | G]; [try discriminate; now injection G|]);
      destruct G. }
  subst p. now split.
Qed.

(** ** The identifier extractor *)

(** An identifier that is extracted is never empty: a call lacks an
    identifier exactly when [extractGclid] returns nothing. *)
Lemma extractGclid_truthy (c : call) :
  JS.truthyOptStr (CsvExport.extractGclid c) = false
  <-> CsvExport.extractGclid c = None.
Proof.
  split; [|now intros ->].
  unfold CsvExport.extractGclid.
  destruct (JS.truthyOptStr (gclid c)) eqn:G; [congruence|].
  destruct (landing_page_url c) as [url|]; [|reflexivity].
  destruct (JS.truthyStr url); [|reflexivity].
  destruct (JS.exec CsvExport.gclidPattern url) as [m|] eqn:E;
    [|reflexivity].
  apply exec_leftmost in E. destruct E as (n & _ & M & _).
  apply matchHere_capture in M.
  destruct M as [-> | (p & d & _ & -> & Ne & _)]; [reflexivity|].
  destruct d; [congruence | discriminate].
Qed.

Lemma extractGclid_examples :
  CsvExport.extractGclid (withGclid blank "Cj0KCQ") = Some "Cj0KCQ"
  /\ CsvExport.extractGclid
       {| id := None; start_time := None; duration := None;
          customer_phone_number := None; source := None; campaign := None;
          landing_page_url :=
            Some "https://example.com/?utm=x&gclid=EAIaIQ&x=1";
          gclid := None; lead_score := ScoreAbsent; tags := None;
          note := None; transcription := NoTranscript |} = Some "EAIaIQ"
  /\ CsvExport.extractGclid blank = None.
Proof. vm_compute. repeat split. Qed.

(** ** What the first horsepower pattern matches *)

Lemma backtrack_top {A : Type} (least : nat) (cont : nat -> option A)
    (k : nat) (r : A) :
  least <= k -> cont k = Some r -> JS.backtrack least cont k = Some r.
Proof.
  intros L C. destruct k as [|k]; cbn [JS.backtrack].
  - assert (E : (0 <? least) = false) by (apply Nat.ltb_ge; lia).
    now rewrite E, C.
  - assert (E : (S k <? least) = false) by (apply Nat.ltb_ge; lia).
    now rewrite E, C.
Qed.

Lemma drop_below_span (p : ascii -> bool) (s : string) (k : nat) :
  k < JS.span p s ->
  exists a rest, JS.drop k s = String a rest /\ p a = true.
Proof.
  revert k. induction s as [|a s IH]; intros k H; cbn [JS.span] in H;
    [lia|].
  destruct (p a) eqn:P; [|lia].
  destruct k as [|k]; [now exists a, s|].
  cbn [JS.drop]. apply IH. lia.
Qed.

Lemma digit_not_space (a : ascii) :
  JS.isDigit a = true -> JS.isSpace a = false.
Proof.
  destruct a as [[] [] [] [] [] [] [] []]; vm_compute;
    intro H; try reflexivity; discriminate H.
Qed.

Lemma digit_or_space_not_h (a : ascii) :
  JS.isDigit a = true \/ JS.isSpace a = true ->
  JS.charEq true "h" a = false.
Proof.
  destruct a as [[] [] [] [] [] [] [] []]; vm_compute;
    intros [H | H]; try reflexivity; discriminate H.
Qed.

(** Under the [i] flag the letters of "hp" match in either case only. *)
Lemma charEq_h_p (a : ascii) :
  (JS.charEq true "h" a = true <-> a = "h"%char \/ a = "H"%char)
  /\ (JS.charEq true "p" a = true <-> a = "p"%char \/ a = "P"%char).
Proof.
  destruct a as [[] [] [] [] [] [] [] []]; vm_compute;
    (split; split; intro H;
     try discriminate H; try reflexivity;
     try (now left); try (now right);
     destruct H as [H | H]; discriminate H).
Qed.

(** [(\d+)\s*hp] matches at the start of [s] exactly when [s] begins with
    digits that are followed, after any white space, by "hp" in either
    case; the capture is the whole run of digits: giving digits or spaces
    back never helps. *)
Lemma hp_match_shape (s : string) (m : option string) :
  let d := JS.span JS.isDigit s in
  let w := JS.span JS.isSpace (JS.drop d s) in
  JS.matchHere true
    (JS.GroupPlus JS.isDigit :: JS.Star JS.isSpace :: JS.lit "hp") s None
  = Some m
  <-> 1 <= d
      /\ m = Some (JS.take d s)
      /\ exists a b rest,
           JS.drop w (JS.drop d s) = String a (String b rest)
           /\ JS.charEq true "h" a = true
           /\ JS.charEq true "p" b = true.
Proof.
  cbv zeta. cbn [JS.lit list_ascii_of_string map JS.matchHere]. split.
  - intro E. apply backtrack_some in E.
    destruct E as (k & [K1 K2] & E & _).
    assert (Kd : k = JS.span JS.isDigit s).
    { destruct (Nat.eq_dec k (JS.span JS.isDigit s)) as [-> | N];
        [reflexivity|]. exfalso.
      destruct (drop_below_span JS.isDigit s k) as (a & rest & D & P);
        [lia|].
      rewrite D in E. cbn [JS.span] in E.
      rewrite (digit_not_space a P) in E.
      cbn [JS.backtrack Nat.ltb Nat.leb JS.drop] in E.
      rewrite (digit_or_space_not_h a (or_introl P)) in E. discriminate E. }
    subst k. apply backtrack_some in E.
    destruct E as (j & [_ J2] & E & _).
    assert (Jw : j = JS.span JS.isSpace (JS.drop (JS.span JS.isDigit s) s)).
    { destruct (Nat.eq_dec j
                  (JS.span JS.isSpace (JS.drop (JS.span JS.isDigit s) s)))
        as [-> | N]; [reflexivity|]. exfalso.
      destruct (drop_below_span JS.isSpace
                  (JS.drop (JS.span JS.isDigit s) s) j)
        as (a & rest & D & P); [lia|].
      rewrite D in E.
      rewrite (digit_or_space_not_h a (or_intror P)) in E. discriminate E. }
    subst j. split; [exact K1|].
    destruct (JS.drop _ (JS.drop _ s)) as [|a [|b rest]] eqn:D;
      try discriminate E.
    + destruct (JS.charEq true "h" a); discriminate E.
    + destruct (JS.charEq true "h" a) eqn:Ha; [|discriminate E].
      destruct (JS.charEq true "p" b) eqn:Hb; [|discriminate E].
      injection E as <-. split; [reflexivity|].
      now exists a, b, rest.
  - intros (D1 & -> & a & b & rest & D & Ha & Hb).
    apply backtrack_top; [exact D1|].
    apply backtrack_top; [lia|].
    now rewrite D, Ha, Hb.
Qed.

(** ** The product detector *)

Lemma firstHit_spec (patterns : list JS.regex) (text : string) :
  let product := CsvExport.firstHit patterns text in
  (product = "default"
   /\ forall pattern hp, In pattern patterns ->
        JS.exec pattern text = Some (Some hp) ->
        CsvExport.inCatalog hp = false)
  \/ exists before pattern after,
       patterns = before ++ pattern :: after
       /\ JS.exec pattern text = Some (Some product)
       /\ CsvExport.inCatalog product = true
       /\ forall p' h, In p' before ->
            JS.exec p' text = Some (Some h) ->
            CsvExport.inCatalog h = false.
Proof.
  induction patterns as [|p ps IH]; cbv zeta.
  - left. split; [reflexivity | intros ? ? []].
  - cbn [CsvExport.firstHit].
    assert (Skip : (forall hp, JS.exec p text = Some (Some hp) ->
                               CsvExport.inCatalog hp = false) ->
            (CsvExport.firstHit ps text = "default"
             /\ forall pattern hp, In pattern (p :: ps) ->
                  JS.exec pattern text = Some (Some hp) ->
                  CsvExport.inCatalog hp = false)
            \/ exists before pattern after,
                 p :: ps = before ++ pattern :: after
                 /\ JS.exec pattern text
                    = Some (Some (CsvExport.firstHit ps text))
                 /\ CsvExport.inCatalog (CsvExport.firstHit ps text) = true
                 /\ forall p' h, In p' before ->
                      JS.exec p' text = Some (Some h) ->
                      CsvExport.inCatalog h = false).
    { intro Fail.
      destruct IH as [[D All] | (before & q & after & -> & E & C & B)].
      - left. split; [exact D|].
        intros q hp [<- | I] E; [now apply Fail | now apply (All q)].
      - right. exists (p :: before), q, after.
        repeat split; try assumption.
        intros p' h [<- | I] E'; [now apply Fail | now apply (B p')]. }
    destruct (JS.exec p text) as [[hp|]|] eqn:E.
    + destruct (CsvExport.inCatalog hp) eqn:C.
      * right. exists [], p, ps. repeat split; try assumption.
        intros ? ? [].
      * apply Skip. intros h H. injection H as <-. exact C.
    + apply Skip. discriminate.
    + apply Skip. discriminate.
Qed.

Lemma firstHit_first (before : list JS.regex) (pattern : JS.regex)
    (after : list JS.regex) (text hp : string) :
  (forall p' h, In p' before -> JS.exec p' text = Some (Some h) ->
                CsvExport.inCatalog h = false) ->
  JS.exec pattern text = Some (Some hp) ->
  CsvExport.inCatalog hp = true ->
  CsvExport.firstHit (before ++ pattern :: after) text = hp.
Proof.
  intros B E C.
  induction before as [|p before IH]; cbn [app CsvExport.firstHit].
  - now rewrite E, C.
  - assert (IH' := IH (fun p' h I => B p' h (or_intror I))).
    destruct (JS.exec p text) as [[h|]|] eqn:Ep; try exact IH'.
    now rewrite (B p h (or_introl eq_refl) Ep).
Qed.

Lemma searchText_blob (c : call) :
  CsvExport.searchText c
  = JS.toLowerCase
      (CsvExport.transcriptText (transcription c) ++ " "
       ++ JS.orStr (note c) "" ++ " "
       ++ JS.join " "
            (map CsvExport.tagText (CsvExport.tagsOrEmpty (tags c))))%string.
Proof. reflexivity. Qed.

(** C6, as stated, fails: a text can contain "25hp" while another
    horsepower figure stands before it; only the leftmost match of a pattern
    is read, and when its number is not in the catalog the later "25hp" is
    never tried. *)
Lemma detectProduct_25hp_not_always :
  ~ (forall c : call,
       (exists pre post,
          CsvExport.searchText c = (pre ++ "25hp" ++ post)%string) ->
       CsvExport.inCatalog "25" = true ->
       CsvExport.detectProduct c = "25").
Proof.
  intro H.
  assert (D : CsvExport.detectProduct (withNote blank "12hp or 25hp") = "25").
  { apply H; [|reflexivity]. now exists " 12hp or ", " ". }
  vm_compute in D. discriminate D.
Qed.

(** C6, amended: the search text is the lower-cased concatenation of
    transcript, note and tag names, separated by spaces.  Each of the three
    patterns is read at its leftmost match only.  The product is the capture
    of the first pattern, in the listed order, whose leftmost match has a
    capture that is a catalog key (a string of digits); a pattern whose
    capture is not a catalog key counts as no match and the next pattern is
    tried; the product is "default" when no pattern succeeds. *)
Theorem detectProduct_first_catalog_hit (c : call) :
  let text := CsvExport.searchText c in
  let product := CsvExport.detectProduct c in
  let fails := fun pattern =>
    forall h, JS.exec pattern text = Some (Some h) ->
              CsvExport.inCatalog h = false in
  text
  = JS.toLowerCase
      (CsvExport.transcriptText (transcription c) ++ " "
       ++ JS.orStr (note c) "" ++ " "
       ++ JS.join " "
            (map CsvExport.tagText (CsvExport.tagsOrEmpty (tags c))))%string
  /\ ((product = "default"
       /\ forall pattern, In pattern CsvExport.hpPatterns -> fails pattern)
      \/ exists before pattern after n,
           CsvExport.hpPatterns = before ++ pattern :: after
           /\ (forall p', In p' before -> fails p')
           /\ JS.exec pattern text = Some (Some product)
           /\ CsvExport.inCatalog product = true
           /\ product <> "default"
           /\ JS.forallChars JS.isDigit product = true
           /\ JS.matchHere true (JS.re_nodes pattern) (JS.drop n text) None
              = Some (Some product)
           /\ forall j, j < n ->
                JS.matchHere true (JS.re_nodes pattern) (JS.drop j text) None
                = None)
  /\ (forall before pattern after hp,
        CsvExport.hpPatterns = before ++ pattern :: after ->
        (forall p', In p' before -> fails p') ->
        JS.exec pattern text = Some (Some hp) ->
        CsvExport.inCatalog hp = true ->
        product = hp).
Proof.
  cbv zeta. split; [apply searchText_blob|]. split.
  - destruct (firstHit_spec CsvExport.hpPatterns (CsvExport.searchText c))
      as [[D All] | (before & p & after & Sp & E & C & B)].
    + left. split; [exact D|]. intros p I h. now apply All.
    + right. fold (CsvExport.detectProduct c) in E, C.
      assert (I : In p CsvExport.hpPatterns)
        by (rewrite Sp; apply in_elt).
      destruct (hp_capture_digits p _ _ I E) as [_ Dg].
      assert (Ic : JS.re_ignoreCase p = true).
      { cbn in I. destruct I as [<- | [<- | [<- | []]]]; reflexivity. }
      destruct (exec_leftmost p _ _ E) as (n & _ & M & Lm).
      rewrite Ic in M, Lm.
      exists before, p, after, n. repeat split; try assumption.
      * intros p' I' h. now apply B.
      * intro X. rewrite X in Dg. discriminate Dg.
  - intros before p after hp Sp B E C. unfold CsvExport.detectProduct.
    rewrite Sp. apply firstHit_first; try assumption.
    intros p' h I. now apply B.
Qed.

(** The example of the specification: the 25 hp model costs 3495. *)
Lemma detectProduct_first_catalog_hit_witness :
  CsvExport.detectProduct
    (withNote blank "this customer wants the 25hp model") = "25"
  /\ JS.get CsvExport.CONFIG.products "25" = Some 3495%Q.
Proof.
  split; [|reflexivity].
  eapply (proj2 (proj2 (detectProduct_first_catalog_hit
                          (withNote blank
                             "this customer wants the 25hp model"))) []).
  - reflexivity.
  - intros p' [].
  - vm_compute. reflexivity.
  - reflexivity.
Defined.

(** Other wordings, tags and transcripts. *)
Lemma detectProduct_examples :
  CsvExport.detectProduct (withNote blank "Wants 40 Horse Power") = "40"
  /\ CsvExport.detectProduct (withNote blank "a 15   horsepower pump") = "15"
  /\ CsvExport.detectProduct (withNote blank "12hp, or 30 horsepower") = "30"
  /\ CsvExport.detectProduct (withNote blank "125hp") = "default"
  /\ CsvExport.detectProduct (withNote blank "025 hp") = "default"
  /\ CsvExport.detectProduct (withNote blank "no figure at all") = "default".
Proof. vm_compute. repeat split. Qed.

(** ** Dictionary reads that stay clear of the prototype

    The catalog and the dictionary of caller groups are read as own
    properties: the keys they are read with are never names of members of
    [Object.prototype]. *)

Lemma inherited_digits (s : string) :
  JS.forallChars JS.isDigit s = true -> JS.inherited s = false.
Proof.
  intro D. unfold JS.inherited, JS.objectPrototypeKeys. cbn [existsb].
  repeat match goal with
         | |- context [String.eqb s ?k] =>
             destruct (String.eqb_spec s k) as [-> | _];
             [discriminate D | cbn [orb]]
         end.
  reflexivity.
Qed.

Lemma normalizePhone_key (o : option string) :
  JS.inherited (CsvExport.normalizePhone o) = false.
Proof.
  destruct o as [p|]; [|reflexivity].
  destruct (JS.truthyStr p) eqn:T.
  - apply inherited_digits. now apply normalizePhone_digits.
  - unfold CsvExport.normalizePhone. now rewrite T.
Qed.

Lemma detectProduct_key (c : call) :
  JS.inherited (CsvExport.detectProduct c) = false
  /\ JS.inherited (snd (CsvExport.scan (0%Q, "default") (c, ""))) = false.
Proof.
  assert (K : JS.inherited (CsvExport.detectProduct c) = false).
  { unfold CsvExport.detectProduct.
    destruct (firstHit_spec CsvExport.hpPatterns (CsvExport.searchText c))
      as [[-> _] | (before & p & after & Sp & E & _)]; [reflexivity|].
    apply inherited_digits.
    apply (hp_capture_digits p (CsvExport.searchText c)); [|exact E].
    rewrite Sp. apply in_elt. }
  split; [exact K|]. cbn [CsvExport.scan snd].
  now destruct (negb (String.eqb (CsvExport.detectProduct c) "default")).
Qed.

(** ** The scan of a caller group *)

Lemma scan_fst (b0 : Q) (p0 : string) (c : call) (x : string) :
  fst (CsvExport.scan (b0, p0) (c, x))
  = match CsvExport.getScorePercent c with
    | JS.Num q => if JS.gt q b0 then q else b0
    | JS.Proto _ => b0
    end.
Proof. reflexivity. Qed.

Lemma scan_snd (b0 : Q) (p0 : string) (c : call) (x : string) :
  snd (CsvExport.scan (b0, p0) (c, x))
  = if negb (String.eqb (CsvExport.detectProduct c) "default")
    then CsvExport.detectProduct c else p0.
Proof. reflexivity. Qed.

(** The best score of a scan started at [b0]: an upper bound of [b0] and of
    every numeric score; it is [b0] itself, or the score of a call that
    exceeds [b0] and every call before it. *)
Lemma scan_best_score (g : CsvExport.group) :
  forall (b0 : Q) (p0 : string),
    let b := fst (fold_left CsvExport.scan g (b0, p0)) in
    (b0 <= b)%Q
    /\ (forall c x q, In (c, x) g ->
          CsvExport.getScorePercent c = JS.Num q -> (q <= b)%Q)
    /\ (b = b0
        \/ exists g1 c x g2,
             g = g1 ++ (c, x) :: g2
             /\ CsvExport.getScorePercent c = JS.Num b
             /\ (b0 < b)%Q
             /\ forall c' x' q, In (c', x') g1 ->
                  CsvExport.getScorePercent c' = JS.Num q -> (q < b)%Q).
Proof.
  induction g as [|[c x] g IH]; intros b0 p0.
  - cbn. split; [lra|]. split; [intros ? ? ? []|]. now left.
  - cbn [fold_left].
    destruct (CsvExport.scan (b0, p0) (c, x)) as [b1 p1] eqn:E.
    assert (B1 : b1 = fst (CsvExport.scan (b0, p0) (c, x))) by now rewrite E.
    rewrite scan_fst in B1. clear E.
    specialize (IH b1 p1). cbv zeta in IH |- *.
    destruct IH as (Lo & Up & Att).
    set (b := fst (fold_left CsvExport.scan g (b1, p1))) in *.
    assert (S : (b0 <= b1)%Q
                /\ (forall q, CsvExport.getScorePercent c = JS.Num q ->
                              (q <= b1)%Q)
                /\ (b1 = b0
                    \/ CsvExport.getScorePercent c = JS.Num b1
                       /\ (b0 < b1)%Q)).
    { destruct (CsvExport.getScorePercent c) as [q|m].
      - destruct (JS.gt q b0) eqn:G; subst b1.
        + apply gt_true in G. split; [lra|]. split.
          * intros q' Q. inversion Q; subst. lra.
          * right. split; [reflexivity | exact G].
        + apply gt_false in G. split; [lra|]. split.
          * intros q' Q. inversion Q; subst. exact G.
          * now left.
      - subst b1. split; [lra|]. split; [discriminate | now left]. }
    destruct S as (S1 & S2 & S3).
    split; [lra|]. split.
    + intros c' x' q [I | I] Q.
      * inversion I; subst. specialize (S2 q Q). lra.
      * exact (Up c' x' q I Q).
    + destruct Att as [Eb | (g1 & c' & x' & g2 & Eg & Sc & Lt & Before)].
      * destruct S3 as [E0 | [Sc Lt]].
        -- left. congruence.
        -- right. exists [], c, x, g. rewrite Eb.
           repeat split; try assumption. intros ? ? ? [].
      * right. exists ((c, x) :: g1), c', x', g2. rewrite Eg.
        repeat split; try assumption; [lra|].
        intros c'' x'' q [I | I] Q.
        -- inversion I; subst. specialize (S2 q Q). lra.
        -- exact (Before c'' x'' q I Q).
Qed.

(** The product of a scan started at [p0]: [p0] when every call detects
    "default", otherwise the detection of the last call that detects
    something else. *)
Lemma scan_best_product (g : CsvExport.group) :
  forall (b0 : Q) (p0 : string),
    let p := snd (fold_left CsvExport.scan g (b0, p0)) in
    (p = p0
     /\ forall c x, In (c, x) g -> CsvExport.detectProduct c = "default")
    \/ exists g1 c x g2,
         g = g1 ++ (c, x) :: g2
         /\ CsvExport.detectProduct c = p
         /\ p <> "default"
         /\ forall c' x', In (c', x') g2 ->
              CsvExport.detectProduct c' = "default".
Proof.
  induction g as [|[c x] g IH]; intros b0 p0.
  - left. split; [reflexivity | intros ? ? []].
  - cbn [fold_left].
    destruct (CsvExport.scan (b0, p0) (c, x)) as [b1 p1] eqn:E.
    assert (P1 : p1 = snd (CsvExport.scan (b0, p0) (c, x))) by now rewrite E.
    rewrite scan_snd in P1. clear E.
    specialize (IH b1 p1). cbv zeta in IH |- *.
    set (p := snd (fold_left CsvExport.scan g (b1, p1))) in *.
    destruct IH as [[Ep All] | (g1 & c' & x' & g2 & Eg & D & N & After)].
    + destruct (String.eqb_spec (CsvExport.detectProduct c) "default")
        as [Dc | Dc]; cbn [negb] in P1.
      * left. split; [congruence|].
        intros c' x' [I | I]; [injection I as <- <-; exact Dc | eauto].
      * right. exists [], c, x, g.
        repeat split; try congruence. exact All.
    + right. exists ((c, x) :: g1), c', x', g2. rewrite Eg.
      repeat split; assumption.
Qed.

(** C7, as stated, fails: a maximum that is observed is the score of some
    call of the group, but the scan starts from 0, so a group whose only
    call scores -5 has the best score 0. *)
Lemma best_score_not_always_observed :
  ~ (forall g : CsvExport.group,
       g <> [] ->
       exists c x, In (c, x) g
                   /\ CsvExport.getScorePercent c
                      = JS.Num (fst (CsvExport.best g))).
Proof.
  intro H.
  destruct (H [(withScore blank (ScoreNumber (-5)), "id")])
    as (c & x & [I | []] & S); [discriminate|].
  injection I as <- <-. discriminate S.
Qed.

(** C7, amended: the best score of a group is the maximum of 0 and the
    numeric scores of its calls, taken in order: it bounds every score from
    above, and it is 0, or the score of the first call that reaches it (the
    calls before score strictly less).  The chosen product is the detection
    of the last call that detects a product other than "default", and
    "default" when there is none. *)
Theorem group_best_score_and_product (g : CsvExport.group) :
  let b := fst (CsvExport.best g) in
  let p := snd (CsvExport.best g) in
  (0 <= b)%Q
  /\ (forall c x q, In (c, x) g ->
        CsvExport.getScorePercent c = JS.Num q -> (q <= b)%Q)
  /\ (b = 0%Q
      \/ exists g1 c x g2,
           g = g1 ++ (c, x) :: g2
           /\ CsvExport.getScorePercent c = JS.Num b
           /\ (0 < b)%Q
           /\ forall c' x' q, In (c', x') g1 ->
                CsvExport.getScorePercent c' = JS.Num q -> (q < b)%Q)
  /\ ((p = "default"
       /\ forall c x, In (c, x) g -> CsvExport.detectProduct c = "default")
      \/ exists g1 c x g2,
           g = g1 ++ (c, x) :: g2
           /\ CsvExport.detectProduct c = p
           /\ p <> "default"
           /\ forall c' x', In (c', x') g2 ->
                CsvExport.detectProduct c' = "default").
Proof.
  intros b p. unfold CsvExport.best in b, p.
  destruct (scan_best_score g 0%Q "default") as (Lo & Up & Att).
  pose proof (scan_best_product g 0%Q "default") as Pr.
  repeat split; assumption.
Qed.

(** A group of three calls: scores 70, 85 and 90, products "10", none and
    "25". The best score is the largest so far and the product the last one
    detected. *)
Lemma group_best_example :
  let c1 := withNote (withScore blank (ScoreNumber 70)) "a 10 hp unit" in
  let c2 := withScore blank (ScoreNumber 85) in
  let c3 := withNote (withScore blank (ScoreString "very_good")) "25hp" in
  CsvExport.best [(c1, "a"); (c2, "b")] = (85%Q, "10")
  /\ CsvExport.best [(c1, "a"); (c2, "b"); (c3, "c")] = (90%Q, "25")
  /\ CsvExport.best [(c3, "c"); (c1, "a")] = (90%Q, "10").
Proof. intros c1 c2 c3. repeat split. Qed.

(** ** Groups without value *)

Lemma get_in_values {A : Type} (o : list (string * A)) (k : string) (v : A) :
  JS.get o k = Some v -> In v (map snd o).
Proof.
  induction o as [|[k' v'] o IH]; cbn [JS.get map snd]; [discriminate|].
  destruct (String.eqb k' k).
  - intro E. injection E as ->. now left.
  - intro E. right. now apply IH.
Qed.

Lemma groupPrice_in_catalog (g : CsvExport.group) :
  In (CsvExport.groupPrice g) (map snd CsvExport.CONFIG.products).
Proof.
  unfold CsvExport.groupPrice, JS.orNum.
  destruct (JS.get CsvExport.CONFIG.products (snd (CsvExport.best g)))
    as [v|] eqn:E.
  - destruct (JS.truthyNum v); [now apply (get_in_values _ _ _ E)|].
    cbn. tauto.
  - cbn. tauto.
Qed.

(** The total of a group is at most 0 exactly when its best score is below
    20, the very_poor band: every price of the catalog is positive and so
    is the multiplier of every other tier. *)
Lemma groupTotal_zero_iff (g : CsvExport.group) :
  JS.le (CsvExport.groupTotal g) 0 = true
  <-> (fst (CsvExport.best g) < 20)%Q.
Proof.
  unfold CsvExport.groupTotal, CsvExport.groupTier, CsvExport.getTier.
  pose proof (groupPrice_in_catalog g) as P.
  set (b := fst (CsvExport.best g)). set (price := CsvExport.groupPrice g) in *.
  cbn [map snd CsvExport.CONFIG.products In] in P.
  destruct (JS.ge b 80) eqn:E80;
    [|destruct (JS.ge b 60) eqn:E60;
      [|destruct (JS.ge b 40) eqn:E40;
        [|destruct (JS.ge b 20) eqn:E20]]];
    repeat match goal with
           | H : JS.ge _ _ = true |- _ => apply ge_true in H
           | H : JS.ge _ _ = false |- _ => apply ge_false in H
           end;
    repeat (destruct P as [<- | P]; [split; intro H; [try discriminate H;
              try assumption; exfalso; lra | try reflexivity; exfalso; lra]|]);
    destruct P.
Qed.

(** ** Dictionaries and their enumeration *)

Lemma insertByIndex_perm {A : Type} (e : string * A) (l : list (string * A)) :
  Permutation (JS.insertByIndex e l) (e :: l).
Proof.
  induction l as [|e' l IH]; cbn [JS.insertByIndex]; [reflexivity|].
  destruct (JS.indexOf (fst e) <=? JS.indexOf (fst e'))%N; [reflexivity|].
  rewrite IH. apply perm_swap.
Qed.

Lemma sortByIndex_perm {A : Type} (l : list (string * A)) :
  Permutation (JS.sortByIndex l) l.
Proof.
  induction l as [|e l IH]; [reflexivity|].
  unfold JS.sortByIndex in *. cbn [fold_right].
  rewrite insertByIndex_perm. now constructor.
Qed.

Lemma filter_split_perm {A : Type} (f : A -> bool) (l : list A) :
  Permutation (filter f l ++ filter (fun a => negb (f a)) l) l.
Proof.
  induction l as [|a l IH]; [reflexivity|].
  cbn [filter]. destruct (f a); cbn [negb app].
  - now constructor.
  - rewrite <- Permutation_middle. now constructor.
Qed.

(** [for ... in] visits every entry of the dictionary exactly once. *)
Lemma forIn_perm {A : Type} (o : list (string * A)) :
  Permutation (JS.forIn o) o.
Proof.
  unfold JS.forIn. rewrite sortByIndex_perm. apply filter_split_perm.
Qed.

(** The groups of a dictionary are visited with the keys that are array
    indices first, in ascending order, then the others as inserted. *)
Lemma forIn_example :
  map fst
    (JS.forIn
       [ ("unknown", 1); ("5551234567", 2); ("4155551234", 3);
         ("2125550000", 4); ("", 5); ("0123456789", 6) ])
  = [ "2125550000"; "4155551234"; "unknown"; "5551234567"; "";
      "0123456789" ].
Proof. vm_compute. reflexivity. Qed.

Lemma list_sum_perm (l l' : list nat) :
  Permutation l l' -> list_sum l = list_sum l'.
Proof. induction 1; unfold list_sum in *; cbn [fold_right]; lia. Qed.

(** The number of calls held by a dictionary of groups. *)
Lemma held_forIn (o : list (string * CsvExport.group)) :
  list_sum (map (@List.length _) (map snd (JS.forIn o)))
  = list_sum (map (@List.length _) (map snd o)).
Proof.
  apply list_sum_perm. do 2 apply Permutation_map. apply forIn_perm.
Qed.

Lemma assign_held (o : list (string * CsvExport.group)) (k : string)
    (e : call * string) :
  list_sum (map (@List.length _)
              (map snd
                 (JS.assign o k
                    (match JS.get o k with Some g => g | None => [] end
                     ++ [e]))))
  = S (list_sum (map (@List.length _) (map snd o))).
Proof.
  induction o as [|[k' g] o IH]; [reflexivity|].
  cbn [JS.get JS.assign]. destruct (String.eqb k' k).
  - cbn [map snd]. unfold list_sum. cbn [fold_right].
    rewrite length_app. cbn [List.length]. lia.
  - cbn [map snd]. unfold list_sum in *. cbn [fold_right].
    rewrite IH. lia.
Qed.

Lemma assign_in (o : list (string * CsvExport.group)) (k : string)
    (e : call * string) (k' : string) (g' : CsvExport.group) :
  In (k', g')
    (JS.assign o k
       (match JS.get o k with Some g => g | None => [] end ++ [e])) ->
  In (k', g') o
  \/ (k' = k
      /\ g' = match JS.get o k with Some g => g | None => [] end ++ [e]
      /\ forall g, JS.get o k = Some g -> In (k, g) o).
Proof.
  induction o as [|[k0 g0] o IH]; cbn [JS.get JS.assign].
  - intros [I | []]. injection I as <- <-. right. repeat split. discriminate.
  - destruct (String.eqb_spec k0 k) as [-> | N].
    + intros [I | I].
      * injection I as <- <-. right. repeat split.
        intros g G. injection G as <-. now left.
      * left. now right.
    + intros [I | I]; [left; now left|].
      destruct (IH I) as [J | (-> & -> & G)]; [left; now right|].
      right. repeat split. intros g Gg. right. now apply G.
Qed.

(** ** The first loop: grouping by caller *)

Lemma collect_skip (st : nat * list (string * CsvExport.group)) (c : call) :
  JS.truthyOptStr (CsvExport.extractGclid c) = false ->
  CsvExport.collect st c = st.
Proof.
  intro H. destruct st as [n o]. unfold CsvExport.collect.
  destruct (CsvExport.extractGclid c) as [x|]; [|reflexivity].
  cbn in H. now rewrite H.
Qed.

Lemma collect_keep (n : nat) (o : list (string * CsvExport.group))
    (c : call) :
  JS.truthyOptStr (CsvExport.extractGclid c) = true ->
  exists x,
    CsvExport.extractGclid c = Some x
    /\ CsvExport.collect (n, o) c
       = (S n,
          JS.assign o (CsvExport.normalizePhone (customer_phone_number c))
            (match
                JS.get o (CsvExport.normalizePhone (customer_phone_number c))
              with
              | Some g => g
              | None => []
              end ++ [(c, x)])).
Proof.
  intro H. unfold CsvExport.collect.
  destruct (CsvExport.extractGclid c) as [x|]; [|discriminate H].
  cbn in H. rewrite H. now exists x.
Qed.

(** Both the counter and the groups grow by one for every call with an
    identifier, and by nothing for the others. *)
Lemma collect_counts (calls : list call) :
  forall (n : nat) (o : list (string * CsvExport.group)),
    let r := fold_left CsvExport.collect calls (n, o) in
    let kept :=
      List.length
        (filter (fun c => JS.truthyOptStr (CsvExport.extractGclid c)) calls) in
    fst r = n + kept
    /\ list_sum (map (@List.length _) (map snd (snd r)))
       = list_sum (map (@List.length _) (map snd o)) + kept.
Proof.
  induction calls as [|c calls IH]; intros n o; cbv zeta.
  - cbn [fold_left filter List.length fst snd]. split; lia.
  - cbn [fold_left filter].
    destruct (JS.truthyOptStr (CsvExport.extractGclid c)) eqn:T.
    + destruct (collect_keep n o c T) as (x & _ & ->).
      specialize (IH (S n)
        (JS.assign o (CsvExport.normalizePhone (customer_phone_number c))
           (match
               JS.get o (CsvExport.normalizePhone (customer_phone_number c))
             with
             | Some g => g
             | None => []
             end ++ [(c, x)]))).
      cbv zeta in IH. destruct IH as [IH1 IH2].
      rewrite IH1, IH2, assign_held. cbn [List.length]. split; lia.
    + rewrite (collect_skip (n, o) c T). apply IH.
Qed.

(** Every group is non-empty and holds calls of the input, each paired with
    the identifier extracted from it. *)
Lemma collect_members (all calls : list call) :
  forall (n : nat) (o : list (string * CsvExport.group)),
    (forall c, In c calls -> In c all) ->
    (forall k g, In (k, g) o ->
       g <> []
       /\ forall c x, In (c, x) g ->
            In c all /\ CsvExport.extractGclid c = Some x) ->
    forall k g, In (k, g) (snd (fold_left CsvExport.collect calls (n, o))) ->
      g <> []
      /\ forall c x, In (c, x) g ->
           In c all /\ CsvExport.extractGclid c = Some x.
Proof.
  induction calls as [|c calls IH]; intros n o Sub Inv; [exact Inv|].
  cbn [fold_left].
  destruct (JS.truthyOptStr (CsvExport.extractGclid c)) eqn:T.
  - destruct (collect_keep n o c T) as (x & X & ->).
    apply IH; [intros c' I; apply Sub; now right|].
    intros k g I. apply assign_in in I.
    destruct I as [I | (-> & -> & G)]; [now apply (Inv k g)|].
    split; [intro E; now apply app_eq_nil in E as [_ E] |].
    intros c' x' J. apply in_app_or in J. destruct J as [J | [J | []]].
    + destruct
        (JS.get o (CsvExport.normalizePhone (customer_phone_number c)))
        as [g0|] eqn:E; [|destruct J].
      exact (proj2 (Inv _ g0 (G g0 eq_refl)) c' x' J).
    + injection J as <- <-. split; [apply Sub; now left | exact X].
  - rewrite (collect_skip (n, o) c T).
    apply IH; [intros c' I; apply Sub; now right | exact Inv].
Qed.

(** ** Rounding to cents *)


(** ** The second loop: valuing the groups *)

Section Pipeline.
Variable newDate : option string -> option CsvExport.date.

Lemma emit_fold (g l : CsvExport.group) :
  forall (s : CsvExport.stats) (out : list CsvExport.Conversion.t),
    let r := fold_left (CsvExport.emit newDate g) l (s, out) in
    snd r = out ++ map (CsvExport.conversionOf newDate g) l
    /\ CsvExport.totalCalls (fst r) = CsvExport.totalCalls s
    /\ CsvExport.withGclid (fst r) = CsvExport.withGclid s
    /\ CsvExport.withValue (fst r) = CsvExport.withValue s + List.length l
    /\ CsvExport.zeroValue (fst r) = CsvExport.zeroValue s
    /\ (CsvExport.totalValue (fst r)
        == CsvExport.totalValue s
           + inject_Z (Z.of_nat (List.length l)) * CsvExport.perCall g)%Q.
Proof.
  induction l as [|e l IH]; intros s out; cbv zeta.
  - cbn [fold_left fst snd map List.length]. rewrite app_nil_r.
    repeat split; try lia. cbn. ring.
  - cbn [fold_left].
    set (st1 := CsvExport.emit newDate g (s, out) e).
    specialize (IH (fst st1) (snd st1)). cbv zeta in IH.
    rewrite <- surjective_pairing in IH.
    destruct IH as (I1 & I2 & I3 & I4 & I5 & I6).
    split; [rewrite I1; cbn; now rewrite <- app_assoc|].
    split; [now rewrite I2|]. split; [now rewrite I3|].
    split; [rewrite I4; cbn; lia|]. split; [now rewrite I5|].
    rewrite I6. cbn [st1 CsvExport.emit fst CsvExport.totalValue List.length].
    rewrite Nat2Z.inj_succ. unfold Z.succ. rewrite inject_Z_plus.
    change (inject_Z 1) with 1%Q. ring.
Qed.

(** What one turn of the loop over the groups does. *)
Lemma processGroup_spec (g : CsvExport.group) (s : CsvExport.stats)
    (out : list CsvExport.Conversion.t) :
  let r := CsvExport.processGroup newDate (s, out) g in
  let zero := JS.le (CsvExport.groupTotal g) 0 in
  snd r
  = out ++ (if zero then [] else map (CsvExport.conversionOf newDate g) g)
  /\ CsvExport.totalCalls (fst r) = CsvExport.totalCalls s
  /\ CsvExport.withGclid (fst r) = CsvExport.withGclid s
  /\ CsvExport.withValue (fst r)
     = CsvExport.withValue s + (if zero then 0 else List.length g)
  /\ CsvExport.zeroValue (fst r)
     = CsvExport.zeroValue s + (if zero then List.length g else 0)
  /\ (CsvExport.totalValue (fst r)
      == CsvExport.totalValue s
         + (if zero then 0
            else inject_Z (Z.of_nat (List.length g)) * CsvExport.perCall g))%Q.
Proof.
  cbv zeta. unfold CsvExport.processGroup.
  destruct (JS.le (CsvExport.groupTotal g) 0).
  - cbn [fst snd CsvExport.totalCalls CsvExport.withGclid
         CsvExport.withValue CsvExport.zeroValue CsvExport.totalValue].
    rewrite app_nil_r. repeat split; try lia. ring.
  - pose proof (emit_fold g g s out) as (E1 & E2 & E3 & E4 & E5 & E6).
    repeat split; try assumption. lia.
Qed.

(** The loop over the groups, from any state. *)
Lemma processGroups_fold (gs : list CsvExport.group) :
  forall (s : CsvExport.stats) (out : list CsvExport.Conversion.t),
    let r := fold_left (CsvExport.processGroup newDate) gs (s, out) in
    snd r
    = out
      ++ flat_map
           (fun g =>
              if JS.le (CsvExport.groupTotal g) 0 then []
              else map (CsvExport.conversionOf newDate g) g) gs
    /\ CsvExport.totalCalls (fst r) = CsvExport.totalCalls s
    /\ CsvExport.withGclid (fst r) = CsvExport.withGclid s
    /\ CsvExport.withValue (fst r)
       = CsvExport.withValue s
         + list_sum
             (map (fun g =>
                     if JS.le (CsvExport.groupTotal g) 0 then 0
                     else List.length g) gs)
    /\ CsvExport.zeroValue (fst r)
       = CsvExport.zeroValue s
         + list_sum
             (map (fun g =>
                     if JS.le (CsvExport.groupTotal g) 0 then List.length g
                     else 0) gs).
Proof.
  induction gs as [|g gs IH]; intros s out; cbv zeta.
  - cbn [fold_left flat_map map list_sum fold_right fst snd].
    rewrite app_nil_r. repeat split; lia.
  - cbn [fold_left].
    destruct (CsvExport.processGroup newDate (s, out) g) as [s1 out1] eqn:E.
    pose proof (processGroup_spec g s out) as P. cbv zeta in P.
    rewrite E in P. cbn [fst snd] in P.
    destruct P as (P1 & P2 & P3 & P4 & P5 & _).
    specialize (IH s1 out1). cbv zeta in IH.
    destruct IH as (I1 & I2 & I3 & I4 & I5).
    rewrite I1, I2, I3, I4, I5, P1, P2, P3, P4, P5.
    cbn [flat_map map]. unfold list_sum. cbn [fold_right].
    rewrite <- app_assoc. repeat split; lia.
Qed.

Lemma process_unfold (calls : list call) :
  let st := fold_left CsvExport.collect calls (0, []) in
  CsvExport.process newDate calls
  = (fold_left (CsvExport.processGroup newDate)
       (map snd (JS.forIn (snd st)))
       ({| CsvExport.totalCalls := List.length calls;
           CsvExport.withGclid := fst st;
           CsvExport.withValue := 0;
           CsvExport.zeroValue := 0;
           CsvExport.totalValue := 0 |}, []),
     snd st).
Proof.
  cbv zeta. unfold CsvExport.process.
  now destruct (fold_left CsvExport.collect calls (0, [])).
Qed.

Lemma groups_members (calls : list call) (g : CsvExport.group) :
  In g (map snd (JS.forIn (snd (fold_left CsvExport.collect calls (0, []))))) ->
  g <> []
  /\ forall c x, In (c, x) g ->
       In c calls /\ CsvExport.extractGclid c = Some x.
Proof.
  intro I. apply in_map_iff in I. destruct I as ([k g'] & <- & I).
  apply (Permutation_in _ (forIn_perm _)) in I.
  apply (collect_members calls calls 0 [] (fun c H => H)) with (k := k).
  - intros ? ? [].
  - exact I.
Qed.

(** The conversions of a run, group after group. *)
Lemma process_conversions (calls : list call) :
  snd (fst (CsvExport.process newDate calls))
  = flat_map
      (fun g =>
         if JS.le (CsvExport.groupTotal g) 0 then []
         else map (CsvExport.conversionOf newDate g) g)
      (map snd
         (JS.forIn (snd (fold_left CsvExport.collect calls (0, []))))).
Proof.
  rewrite process_unfold. cbv zeta. cbn [fst snd].
  match goal with
  | |- context [fold_left (CsvExport.processGroup newDate) ?gs (?s, [])] =>
      pose proof (processGroups_fold gs s []) as F
  end.
  cbv zeta in F. exact (proj1 F).
Qed.


Lemma collect_without (before after : list call) (c : call)
    (st : nat * list (string * CsvExport.group)) :
  JS.truthyOptStr (CsvExport.extractGclid c) = false ->
  fold_left CsvExport.collect (before ++ c :: after) st
  = fold_left CsvExport.collect (before ++ after) st.
Proof.
  intro H. rewrite !fold_left_app. cbn [fold_left].
  now rewrite collect_skip.
Qed.

(** C5: the counters of a run reconcile.  totalCalls is the number of calls
    fetched, and it is withGclid plus the number of calls without an
    identifier; withGclid is withValue plus zeroValue; withValue is the
    number of conversions.  A call without an identifier changes neither
    the conversions nor withGclid, wherever it stands in the input. *)
Theorem stats_reconcile (calls : list call) :
  let r := CsvExport.process newDate calls in
  let s := fst (fst r) in
  let lacking :=
    filter (fun c => negb (JS.truthyOptStr (CsvExport.extractGclid c)))
      calls in
  CsvExport.totalCalls s = List.length calls
  /\ CsvExport.totalCalls s = CsvExport.withGclid s + List.length lacking
  /\ CsvExport.withGclid s = CsvExport.withValue s + CsvExport.zeroValue s
  /\ CsvExport.withValue s = List.length (snd (fst r))
  /\ forall before c after,
       calls = before ++ after ->
       JS.truthyOptStr (CsvExport.extractGclid c) = false ->
       let r' := CsvExport.process newDate (before ++ c :: after) in
       snd (fst r') = snd (fst r)
       /\ CsvExport.withGclid (fst (fst r')) = CsvExport.withGclid s
       /\ CsvExport.totalCalls (fst (fst r')) = S (CsvExport.totalCalls s).
Proof.
  cbv zeta. rewrite process_unfold. cbv zeta. cbn [fst snd].
  destruct (collect_counts calls 0 []) as [C1 C2]. cbn [map list_sum] in C2.
  set (st := fold_left CsvExport.collect calls (0, [])) in *.
  match goal with
  | |- context [fold_left (CsvExport.processGroup newDate) ?gs (?s, [])] =>
      pose proof (processGroups_fold gs s []) as F; cbv zeta in F;
      set (r := fold_left (CsvExport.processGroup newDate) gs (s, [])) in *
  end.
  destruct F as (F1 & F2 & F3 & F4 & F5).
  cbn [CsvExport.totalCalls CsvExport.withGclid CsvExport.withValue
       CsvExport.zeroValue] in F2, F3, F4, F5.
  assert (K : forall l : list call,
             List.length l
             = List.length
                 (filter
                    (fun c => JS.truthyOptStr (CsvExport.extractGclid c)) l)
               + List.length
                   (filter
                      (fun c =>
                         negb (JS.truthyOptStr (CsvExport.extractGclid c)))
                      l)).
  { induction l as [|a l IH]; [reflexivity|]. cbn [filter].
    destruct (JS.truthyOptStr (CsvExport.extractGclid a));
      cbn [negb List.length]; lia. }
  assert (V : forall gs : list CsvExport.group,
             list_sum
               (map (fun g =>
                       if JS.le (CsvExport.groupTotal g) 0 then 0
                       else List.length g) gs)
             + list_sum
                 (map (fun g =>
                         if JS.le (CsvExport.groupTotal g) 0
                         then List.length g else 0) gs)
             = list_sum (map (@List.length _) gs)).
  { induction gs as [|g gs IH]; [reflexivity|].
    cbn [map]. unfold list_sum in *. cbn [fold_right].
    destruct (JS.le (CsvExport.groupTotal g) 0); lia. }
  split; [exact F2|]. split; [rewrite F2, F3, C1, (K calls); lia|].
  split.
  { rewrite F3, F4, F5, C1.
    specialize (V (map snd (JS.forIn (snd st)))).
    rewrite held_forIn in V. cbn [list_sum fold_right] in C2. lia. }
  split.
  { rewrite F4, F1. cbn [app]. clear.
    induction (map snd (JS.forIn (snd st))) as [|g gs IH]; [reflexivity|].
    cbn [flat_map map]. rewrite length_app, <- IH.
    unfold list_sum. cbn [fold_right].
    destruct (JS.le (CsvExport.groupTotal g) 0);
      [reflexivity | now rewrite length_map]. }
  intros before c after E L. rewrite process_unfold. cbv zeta.
  cbn [fst snd]. rewrite (collect_without before after c (0, []) L).
  rewrite <- E. fold st.
  match goal with
  | |- context [fold_left (CsvExport.processGroup newDate) ?gs (?s, [])] =>
      pose proof (processGroups_fold gs s []) as G; cbv zeta in G
  end.
  destruct G as (G1 & G2 & G3 & _).
  rewrite G1, G2, G3, F1, F2, F3. cbn. rewrite E, !length_app. cbn.
  repeat split. lia.
Qed.

Lemma sum_of_equal_values (g l : CsvExport.group) :
  (fold_right Qplus 0
     (map CsvExport.Conversion.conversionValue
        (map (CsvExport.conversionOf newDate g) l))
   == inject_Z (Z.of_nat (List.length l)) * CsvExport.perCall g)%Q.
Proof.
  induction l as [|[c x] l IH]; [cbn; ring|].
  cbn [map fold_right List.length]. rewrite IH.
  cbn [CsvExport.conversionOf CsvExport.Conversion.conversionValue].
  rewrite Nat2Z.inj_succ. unfold Z.succ. rewrite inject_Z_plus.
  change (inject_Z 1) with 1%Q. ring.
Qed.



Lemma handler_conversions (now : Z) (params : CsvExport.query)
    (fetchAllCalls : Z -> Z -> list call) :
  CsvExport.conversions (CsvExport.handler newDate now params fetchAllCalls)
  = snd (fst
      (CsvExport.process newDate
         (fetchAllCalls
            (now
             - CsvExport.orInt (CsvExport.hours params)
                 (CsvExport.orInt (CsvExport.days params) 7 * 24)
               * 60 * 60 * 1000)%Z
            now))).
Proof.
  unfold CsvExport.handler.
  now destruct (CsvExport.process newDate _) as [[s out] o].
Qed.

(** C9: two runs that fetch the same calls produce the same list of
    conversions, whatever the clock and the query parameters of either run;
    the time of every conversion is formatted from the start time of a call
    of the input, the one its identifier and call id come from. *)
Theorem two_run_determinism (now1 now2 : Z) (params1 params2 : CsvExport.query)
    (fetch1 fetch2 : Z -> Z -> list call) :
  let start := fun now params =>
    (now
     - CsvExport.orInt (CsvExport.hours params)
         (CsvExport.orInt (CsvExport.days params) 7 * 24)
       * 60 * 60 * 1000)%Z in
  fetch1 (start now1 params1) now1 = fetch2 (start now2 params2) now2 ->
  CsvExport.conversions (CsvExport.handler newDate now1 params1 fetch1)
  = CsvExport.conversions (CsvExport.handler newDate now2 params2 fetch2)
  /\ forall cv,
       In cv
         (CsvExport.conversions
            (CsvExport.handler newDate now1 params1 fetch1)) ->
       exists c,
         In c (fetch1 (start now1 params1) now1)
         /\ CsvExport.Conversion.conversionTime cv
            = CsvExport.formatGoogleAdsTime newDate (start_time c)
         /\ CsvExport.extractGclid c
            = Some (CsvExport.Conversion.gclid cv)
         /\ CsvExport.Conversion.callId cv = id c.
Proof.
  intros start Same. rewrite !handler_conversions. fold (start now1 params1).
  fold (start now2 params2). rewrite <- Same. split; [reflexivity|].
  set (calls := fetch1 (start now1 params1) now1).
  rewrite process_conversions. intros cv I. apply in_flat_map in I.
  destruct I as (g & G & I).
  destruct (JS.le (CsvExport.groupTotal g) 0); [destruct I|].
  apply in_map_iff in I. destruct I as ([c x] & <- & J).
  destruct (groups_members calls g G) as [_ M].
  destruct (M c x J) as [Ic X].
  exists c. repeat split; [exact Ic | exact X].
Qed.

End Pipeline.

(** ** Concrete runs *)

Lemma group_best_score_and_product_witness :
  let c1 := withNote (withScore blank (ScoreNumber 70)) "a 10 hp unit" in
  let c2 := withScore blank (ScoreNumber 85) in
  let g := [(c1, "a"); (c2, "b")] in
  (70 <= fst (CsvExport.best g))%Q /\ (85 <= fst (CsvExport.best g))%Q.
Proof.
  intros c1 c2 g.
  destruct (group_best_score_and_product g) as (_ & Up & _).
  split.
  - apply (Up c1 "a" 70%Q); [now left | reflexivity].
  - apply (Up c2 "b" 85%Q); [right; now left | reflexivity].
Defined.


Lemma stats_reconcile_witness :
  let c1 :=
    withGclid
      (withPhone (withScore blank (ScoreNumber 85)) (Some "(555) 123-4567"))
      "gclid-a" in
  let c2 :=
    withGclid (withPhone (withScore blank (ScoreNumber 10)) (Some "5550000"))
      "gclid-b" in
  let r := CsvExport.process (fun _ => None) [c1; c2] in
  let r' := CsvExport.process (fun _ => None) [c1; blank; c2] in
  snd (fst r') = snd (fst r)
  /\ CsvExport.withGclid (fst (fst r')) = CsvExport.withGclid (fst (fst r))
  /\ CsvExport.totalCalls (fst (fst r'))
     = S (CsvExport.totalCalls (fst (fst r))).
Proof.
  intros c1 c2 r r'.
  destruct (stats_reconcile (fun _ => None) [c1; c2]) as (_ & _ & _ & _ & W).
  exact (W [c1] blank [c2] eq_refl eq_refl).
Defined.


Lemma two_run_determinism_witness :
  let c :=
    withGclid
      (withPhone (withScore blank (ScoreNumber 85)) (Some "(555) 123-4567"))
      "gclid-a" in
  let fetch := fun (_ _ : Z) => [c; c] in
  CsvExport.conversions
    (CsvExport.handler (fun _ => None) 1700000000000
       {| CsvExport.hours := Some 168%Z; CsvExport.days := None |} fetch)
  = CsvExport.conversions
      (CsvExport.handler (fun _ => None) 1800000000000
         {| CsvExport.hours := None; CsvExport.days := Some 7%Z |} fetch).
Proof.
  intros c fetch.
  exact (proj1
           (two_run_determinism (fun _ => None) 1700000000000 1800000000000
              {| CsvExport.hours := Some 168%Z; CsvExport.days := None |}
              {| CsvExport.hours := None; CsvExport.days := Some 7%Z |}
              fetch fetch eq_refl)).
Defined.

(** * Further properties *)

(** ** Fetching the calls *)

(** The calls of a page, as the loop reads them. *)
Lemma fetchLoop_pages (provider : nat -> CsvExport.response) (fuel : nat) :
  forall (page : nat) (acc : list call),
    1 <= page <= 10 -> page + fuel = 11 ->
    exists k,
      page <= k <= 10
      /\ (forall i, page <= i < k ->
            exists l, provider i = CsvExport.Ok (Some l)
                      /\ 250 <= List.length l)
      /\ ((exists status statusText,
             provider k = CsvExport.NotOk status statusText
             /\ CsvExport.fetchLoop fuel provider page acc
                = Some (CsvExport.Thrown
                          ("CallRail API error: " ++ JS.stringOfInt status
                           ++ " " ++ statusText)%string))
          \/ (exists data,
                provider k = CsvExport.Ok data
                /\ (List.length
                      (match data with Some l => l | None => [] end) < 250
                    \/ k = 10)
                /\ CsvExport.fetchLoop fuel provider page acc
                   = Some (CsvExport.Calls
                             (acc
                              ++ flat_map
                                   (fun i =>
                                      match provider i with
                                      | CsvExport.Ok (Some l) => l
                                      | _ => []
                                      end)
                                   (seq page (S k - page)))))).
Proof.
  induction fuel as [|fuel IH]; intros page acc P F; [lia|].
  cbn [CsvExport.fetchLoop].
  destruct (provider page) as [status statusText | data] eqn:E.
  - exists page. split; [lia|]. split; [intros i I; lia|].
    left. now exists status, statusText.
  - set (calls := match data with Some l => l | None => [] end).
    destruct ((List.length calls <? 250) || (10 <=? page)) eqn:Stop.
    + exists page. split; [lia|]. split; [intros i I; lia|].
      right. exists data. split; [exact E|]. split.
      * apply orb_true_iff in Stop. destruct Stop as [S1 | S2].
        -- left. now apply Nat.ltb_lt in S1.
        -- right. apply Nat.leb_le in S2. lia.
      * replace (S page - page) with 1 by lia.
        cbn [seq flat_map]. rewrite E, app_nil_r.
        unfold calls. now destruct data.
    + apply orb_false_iff in Stop. destruct Stop as [S1 S2].
      apply Nat.ltb_ge in S1. apply Nat.leb_gt in S2.
      destruct (IH (S page) (acc ++ calls)) as (k & K & Full & End);
        [lia | lia |].
      assert (D : data = Some calls).
      { unfold calls in *. destruct data; [reflexivity|].
        cbn in S1. lia. }
      exists k. split; [lia|]. split.
      * intros i I. destruct (Nat.eq_dec i page) as [-> | N].
        -- exists calls. rewrite E, D. now split.
        -- apply Full. lia.
      * destruct End as [(st & tx & Ek & R) | (d & Ek & Last & R)].
        -- left. now exists st, tx.
        -- right. exists d. split; [exact Ek|]. split; [exact Last|].
           rewrite R. replace (S k - page) with (S (S k - S page)) by lia.
           cbn [seq flat_map]. rewrite E, D, app_assoc. reflexivity.
Qed.

(** X1: [fetchAllCalls] always ends within its ten turns.  It asks for the
    pages 1, 2, ... in turn and stops at the first page [k] that fails, or
    holds fewer than 250 calls, or is page 10; every page before [k] held
    at least 250 calls.  When page [k] fails it throws, and the calls of
    the earlier pages are lost; otherwise it returns the calls of the pages
    1 to [k], in order. *)
Theorem fetchAllCalls_pages (provider : nat -> CsvExport.response) :
  exists k,
    1 <= k <= 10
    /\ (forall i, 1 <= i < k ->
          exists l, provider i = CsvExport.Ok (Some l)
                    /\ 250 <= List.length l)
    /\ ((exists status statusText,
           provider k = CsvExport.NotOk status statusText
           /\ CsvExport.fetchAllCalls provider
              = Some (CsvExport.Thrown
                        ("CallRail API error: " ++ JS.stringOfInt status
                         ++ " " ++ statusText)%string))
        \/ (exists data,
              provider k = CsvExport.Ok data
              /\ (List.length
                    (match data with Some l => l | None => [] end) < 250
                  \/ k = 10)
              /\ CsvExport.fetchAllCalls provider
                 = Some (CsvExport.Calls
                           (flat_map
                              (fun i =>
                                 match provider i with
                                 | CsvExport.Ok (Some l) => l
                                 | _ => []
                                 end)
                              (seq 1 k))))).
Proof.
  destruct (fetchLoop_pages provider 10 1 [] ltac:(lia) eq_refl)
    as (k & K & Full & End).
  exists k. split; [exact K|]. split; [exact Full|].
  replace (S k - 1) with k in End by lia. exact End.
Qed.

Lemma flat_map_length_bound {A B : Type} (f : A -> list B) (l : list A)
    (n : nat) :
  (forall a, In a l -> List.length (f a) <= n) ->
  List.length (flat_map f l) <= List.length l * n.
Proof.
  induction l as [|a l IH]; intro H; [cbn; lia|].
  cbn [flat_map List.length]. rewrite length_app.
  specialize (IH (fun b I => H b (or_intror I))).
  specialize (H a (or_introl eq_refl)). lia.
Qed.

(** X2: when no page holds more than the 250 calls asked for, a fetch
    returns at most 2500 calls; and the fetch depends on the first ten
    pages only: a provider with more to give is cut off after page 10. *)
Theorem fetchAllCalls_ceiling (provider other : nat -> CsvExport.response)
    (calls : list call) :
  (forall i l, provider i = CsvExport.Ok (Some l) -> List.length l <= 250) ->
  (forall i, 1 <= i <= 10 -> other i = provider i) ->
  CsvExport.fetchAllCalls provider = Some (CsvExport.Calls calls) ->
  List.length calls <= 2500
  /\ CsvExport.fetchAllCalls other = Some (CsvExport.Calls calls).
Proof.
  intros Size Same R. split.
  - destruct (fetchLoop_pages provider 10 1 [] ltac:(lia) eq_refl)
      as (k & K & _ & E).
    fold (CsvExport.fetchAllCalls provider) in E. rewrite R in E.
    destruct E as [(st & tx & _ & E) | (d & _ & _ & E)]; [discriminate E|].
    injection E as ->. cbn [app].
    etransitivity; [apply (flat_map_length_bound _ _ 250)|].
    + intros i _. destruct (provider i) as [|[l|]] eqn:P; cbn; try lia.
      exact (Size i l P).
    + rewrite length_seq. nia.
  - rewrite <- R. unfold CsvExport.fetchAllCalls.
    assert (G : forall fuel page acc,
               1 <= page <= 10 -> page + fuel = 11 ->
               CsvExport.fetchLoop fuel other page acc
               = CsvExport.fetchLoop fuel provider page acc).
    { induction fuel as [|fuel IH]; intros page acc P F; [reflexivity|].
      cbn [CsvExport.fetchLoop]. rewrite (Same page) by lia.
      destruct (provider page) as [|data]; [reflexivity|].
      destruct ((List.length _ <? 250) || (10 <=? page)) eqn:Stop;
        [reflexivity|].
      apply orb_false_iff in Stop. destruct Stop as [_ S2].
      apply Nat.leb_gt in S2. apply IH; lia. }
    apply G; lia.
Qed.

Lemma fetchAllCalls_ceiling_witness :
  List.length (repeat blank 2500) <= 2500
  /\ CsvExport.fetchAllCalls
       (fun i =>
          if i <=? 10 then CsvExport.Ok (Some (repeat blank 250))
          else CsvExport.NotOk 500 "Internal Server Error")
     = Some (CsvExport.Calls (repeat blank 2500)).
Proof.
  apply (fetchAllCalls_ceiling
           (fun _ => CsvExport.Ok (Some (repeat blank 250)))).
  - intros i l E. injection E as <-. vm_compute. lia.
  - intros i I. destruct (Nat.leb_spec i 10); [reflexivity | lia].
  - vm_compute. reflexivity.
Defined.



(** ** The identifier in the landing page URL *)

Lemma exec_found (r : JS.regex) (s : string) (n : nat) (m : option string) :
  n <= String.length s ->
  JS.matchHere (JS.re_ignoreCase r) (JS.re_nodes r) (JS.drop n s) None
  = Some m ->
  (forall j, j < n ->
     JS.matchHere (JS.re_ignoreCase r) (JS.re_nodes r) (JS.drop j s) None
     = None) ->
  JS.exec r s = Some m.
Proof.
  revert n. induction s as [|a s IH]; intros n L M Before.
  - destruct n; [|cbn in L; lia]. cbn [JS.exec]. cbn in M. now rewrite M.
  - cbn [JS.exec]. destruct n as [|n].
    + cbn [JS.drop] in M. now rewrite M.
    + pose proof (Before 0 ltac:(lia)) as B0. cbn [JS.drop] in B0.
      rewrite B0. apply (IH n).
      * cbn in L. lia.
      * exact M.
      * intros j J. apply (Before (S j)). lia.
Qed.

Lemma matchHere_lit (w : string) (ns : list JS.node) (s : string)
    (cap r : option string) :
  JS.matchHere false (JS.lit w ++ ns) s cap = Some r
  <-> exists rest,
        s = (w ++ rest)%string /\ JS.matchHere false ns rest cap = Some r.
Proof.
  revert s. induction w as [|c w IH]; intro s.
  - cbn. split; [intro H; now exists s | now intros (rest & -> & H)].
  - change (JS.lit (String c w) ++ ns) with (JS.Chr c :: (JS.lit w ++ ns)).
    cbn [JS.matchHere]. destruct s as [|a s].
    + split; [discriminate | intros (rest & E & _); discriminate E].
    + unfold JS.charEq. destruct (Ascii.eqb_spec c a) as [<- | N].
      * rewrite IH. split.
        -- intros (rest & -> & H). now exists rest.
        -- intros (rest & E & H). injection E as ->. now exists rest.
      * split; [discriminate|].
        intros (rest & E & _). injection E as E _. congruence.
Qed.

Local Abbreviation notAmp :=
  (fun c : ascii => negb (Ascii.eqb c "&")).

(** [/[?&]gclid=([^&]+)/] matches at the start of [s] exactly when [s] is a
    "?" or "&", then "gclid=", then at least one character other than "&";
    the capture runs up to the next "&" or the end. *)
Lemma gclid_match_shape (s : string) (m : option string) :
  JS.matchHere false (JS.re_nodes CsvExport.gclidPattern) s None = Some m
  <-> exists sep rest,
        s = String sep ("gclid=" ++ rest)
        /\ (sep = "?"%char \/ sep = "&"%char)
        /\ 1 <= JS.span notAmp rest
        /\ m = Some (JS.take (JS.span notAmp rest) rest).
Proof.
  unfold CsvExport.gclidPattern. cbn [JS.re_nodes].
  change (JS.Cls ?p :: JS.lit "gclid=" ++ ?g)
    with (JS.Cls p :: (JS.lit "gclid=" ++ g)).
  cbn [JS.matchHere]. destruct s as [|a s].
  - split; [discriminate | intros (? & ? & E & _); discriminate E].
  - assert (G : forall rest,
               JS.matchHere false
                 [JS.GroupPlus (fun c => negb (Ascii.eqb c "&"))] rest None
               = Some m
               <-> 1 <= JS.span notAmp rest
                   /\ m = Some (JS.take (JS.span notAmp rest) rest)).
    { intro rest. cbn [JS.matchHere].
      destruct (JS.span notAmp rest) as [|k] eqn:Sp; cbn [JS.backtrack].
      - split; [discriminate | intros [H _]; lia].
      - cbn [Nat.ltb Nat.leb]. split.
        + intro E. injection E as <-. split; [lia | reflexivity].
        + now intros [_ ->]. }
    destruct (Ascii.eqb_spec a "?") as [-> | Nq];
      [|destruct (Ascii.eqb_spec a "&") as [-> | Na]]; cbn [orb].
    + rewrite matchHere_lit. split.
      * intros (rest & -> & H). apply G in H. exists "?"%char, rest.
        repeat split; tauto.
      * intros (sep & rest & E & _ & H). injection E as <- ->.
        exists rest. split; [reflexivity|]. now apply G.
    + rewrite matchHere_lit. split.
      * intros (rest & -> & H). apply G in H. exists "&"%char, rest.
        repeat split; tauto.
      * intros (sep & rest & E & _ & H). injection E as <- ->.
        exists rest. split; [reflexivity|]. now apply G.
    + split; [discriminate|].
      intros (sep & rest & E & [-> | ->] & _); injection E as E _;
        congruence.
Qed.

Lemma drop_span (p : ascii -> bool) (s : string) :
  JS.drop (JS.span p s) s = ""
  \/ exists a t, JS.drop (JS.span p s) s = String a t /\ p a = false.
Proof.
  induction s as [|a s IH]; [now left|].
  cbn [JS.span]. destruct (p a) eqn:P; [exact IH|].
  right. now exists a, s.
Qed.

Lemma drop_length_app (a b : string) :
  JS.drop (String.length a) (a ++ b) = b.
Proof. induction a as [|c a IH]; [now destruct b | exact IH]. Qed.

Lemma drop_app_le (j : nat) (a b : string) :
  j <= String.length a -> JS.drop j (a ++ b) = (JS.drop j a ++ b)%string.
Proof.
  revert a. induction j as [|j IH]; intros [|c a] L; cbn in *;
    try reflexivity; try lia.
  apply IH. lia.
Qed.

Lemma drop_nonempty (j : nat) (a : string) :
  j < String.length a -> exists c t, JS.drop j a = String c t.
Proof.
  revert a. induction j as [|j IH]; intros [|c a] L; cbn in *; try lia.
  - now exists c, a.
  - apply IH. lia.
Qed.

Lemma take_drop_eq (j : nat) (a : string) :
  a = (JS.take j a ++ JS.drop j a)%string.
Proof. symmetry. apply take_drop. Qed.

Lemma span_app_stop (p : ascii -> bool) (v post : string) :
  JS.forallChars p v = true ->
  (post = "" \/ exists a t, post = String a t /\ p a = false) ->
  JS.span p (v ++ post) = String.length v
  /\ JS.take (String.length v) (v ++ post) = v.
Proof.
  intros V P. induction v as [|c v IH]; cbn [append String.length].
  - split; [|now destruct post].
    destruct P as [-> | (a & t & -> & Pa)]; [reflexivity|].
    cbn. now rewrite Pa.
  - cbn [JS.forallChars] in V. apply andb_true_iff in V.
    destruct V as [Pc V]. destruct (IH V) as [I1 I2].
    cbn [JS.span JS.take]. now rewrite Pc, I1, I2.
Qed.

Lemma append_assoc (a b c : string) :
  ((a ++ b) ++ c = a ++ (b ++ c))%string.
Proof. induction a as [|x a IH]; cbn; [reflexivity | now rewrite IH]. Qed.

Lemma length_append (a b : string) :
  String.length (a ++ b) = String.length a + String.length b.
Proof. induction a as [|c a IH]; cbn; [reflexivity | now rewrite IH]. Qed.

(** X4: an identifier that [extractGclid] returns is never empty.  It is
    the [gclid] field of the call when that field is not empty; otherwise
    it stands in the landing page URL after a "?" or "&" and "gclid=", and
    runs to the next "&" or to the end of the URL. *)
Theorem extractGclid_sound (c : call) (x : string) :
  CsvExport.extractGclid c = Some x ->
  x <> ""
  /\ (gclid c = Some x
      \/ (JS.truthyOptStr (gclid c) = false
          /\ exists url pre sep post,
               landing_page_url c = Some url
               /\ url = (pre ++ String sep ("gclid=" ++ x ++ post))%string
               /\ (sep = "?"%char \/ sep = "&"%char)
               /\ JS.forallChars notAmp x = true
               /\ (post = "" \/ exists t, post = String "&" t))).
Proof.
  unfold CsvExport.extractGclid.
  destruct (JS.truthyOptStr (gclid c)) eqn:G.
  - intro E. split; [|now left].
    rewrite E in G. destruct x; [discriminate G | discriminate].
  - destruct (landing_page_url c) as [url|]; [|discriminate].
    destruct (JS.truthyStr url); [|discriminate].
    destruct (JS.exec CsvExport.gclidPattern url) as [m|] eqn:E;
      [|discriminate].
    intros ->. apply exec_leftmost in E. destruct E as (n & _ & M & _).
    apply gclid_match_shape in M.
    destruct M as (sep & rest & D & Sep & Sp & X). injection X as ->.
    split; [now apply (take_nonempty notAmp)|]. right.
    split; [reflexivity|].
    exists url, (JS.take n url), sep, (JS.drop (JS.span notAmp rest) rest).
    split; [reflexivity|]. split.
    + rewrite take_drop, <- D. apply take_drop_eq.
    + split; [exact Sep|]. split; [now apply take_span|].
      destruct (drop_span notAmp rest) as [-> | (a & t & -> & A)];
        [now left|].
      right. exists t. apply negb_false_iff in A.
      now apply Ascii.eqb_eq in A as ->.
Qed.

Lemma extractGclid_sound_witness : "EAIaIQ" <> "".
Proof.
  apply (extractGclid_sound
           {| id := None; start_time := None; duration := None;
              customer_phone_number := None; source := None;
              campaign := None;
              landing_page_url :=
                Some "https://example.com/?utm=x&gclid=EAIaIQ&x=1";
              gclid := None; lead_score := ScoreAbsent; tags := None;
              note := None; transcription := NoTranscript |} "EAIaIQ").
  vm_compute. reflexivity.
Defined.

(** X5: a [gclid] parameter of the landing page URL is found whenever the
    call has no [gclid] field of its own: if the URL reads
    [pre ? gclid= v post] (or with "&" for "?"), where "gclid=" does not
    occur in [pre], [v] is not empty and holds no "&", and [post] is empty
    or starts with "&", then the identifier extracted is [v]. *)
Theorem extractGclid_round_trip (c : call) (pre v post : string)
    (sep : ascii) :
  JS.truthyOptStr (gclid c) = false ->
  landing_page_url c
  = Some (pre ++ String sep ("gclid=" ++ v ++ post))%string ->
  sep = "?"%char \/ sep = "&"%char ->
  (forall a b, pre <> (a ++ "gclid=" ++ b)%string) ->
  v <> "" ->
  JS.forallChars notAmp v = true ->
  post = "" \/ (exists t, post = String "&" t) ->
  CsvExport.extractGclid c = Some v.
Proof.
  intros G U Sep Fresh Nv Fv Post.
  unfold CsvExport.extractGclid. rewrite G, U.
  set (tail := String sep ("gclid=" ++ v ++ post)).
  assert (T : JS.truthyStr (pre ++ tail) = true) by now destruct pre.
  rewrite T.
  assert (Sp : JS.span notAmp (v ++ post) = String.length v
               /\ JS.take (String.length v) (v ++ post) = v).
  { apply span_app_stop; [exact Fv|].
    destruct Post as [-> | (t & ->)]; [now left|].
    right. now exists "&"%char, t. }
  destruct Sp as [Sp Tk].
  rewrite (exec_found CsvExport.gclidPattern (pre ++ tail)
             (String.length pre) (Some v)); [reflexivity| | |].
  - rewrite length_append. lia.
  - rewrite drop_length_app. apply gclid_match_shape.
    exists sep, (v ++ post)%string. split; [reflexivity|].
    split; [exact Sep|]. rewrite Sp, Tk. split; [|reflexivity].
    destruct v; [congruence | cbn; lia].
  - intros j J.
    destruct (JS.matchHere _ _ (JS.drop j (pre ++ tail)) None) as [m|] eqn:M;
      [|reflexivity].
    exfalso. apply gclid_match_shape in M.
    destruct M as (sep' & rest' & D & _).
    rewrite drop_app_le in D by lia.
    destruct (drop_nonempty j pre J) as (c0 & p' & Dp).
    rewrite Dp in D. cbn [append] in D. injection D as _ D.
    assert (P : pre = (JS.take j pre ++ String c0 p')%string)
      by (rewrite <- Dp; apply take_drop_eq).
    unfold tail in D.
    repeat (destruct p' as [|? p'];
            [ cbn in D; injection D; intros; subst;
              destruct Sep as [Sep | Sep]; discriminate Sep
            | cbn in D; injection D as ? D; subst ]).
    apply (Fresh (JS.take j pre ++ String c0 "")%string p').
    rewrite P at 1. rewrite append_assoc. reflexivity.
Qed.

Lemma extractGclid_round_trip_witness :
  CsvExport.extractGclid
    {| id := None; start_time := None; duration := None;
       customer_phone_number := None; source := None; campaign := None;
       landing_page_url :=
         Some "https://example.com/pumps?utm=x&gclid=EAIaIQ&x=1";
       gclid := Some ""; lead_score := ScoreAbsent; tags := None;
       note := None; transcription := NoTranscript |} = Some "EAIaIQ".
Proof.
  apply (extractGclid_round_trip _ "https://example.com/pumps?utm=x"
           "EAIaIQ" "&x=1" "&"%char).
  - reflexivity.
  - reflexivity.
  - now right.
  - intros a b E.
    assert (H : forall a b s,
               s = (a ++ "gclid=" ++ b)%string ->
               existsb (Ascii.eqb "g") (list_ascii_of_string s) = true).
    { clear. intros a b.
      induction a as [|x a IH]; intros s ->; [reflexivity|].
      cbn [append list_ascii_of_string existsb].
      apply orb_true_iff. right. apply (IH _ eq_refl). }
    specialize (H a b _ E). vm_compute in H.
    discriminate H.
  - discriminate.
  - reflexivity.
  - right. now exists "x=1".
Defined.

(** ** The key of a caller *)

Lemma deleteAll_app (p : ascii -> bool) (a b : string) :
  JS.deleteAll p (a ++ b) = (JS.deleteAll p a ++ JS.deleteAll p b)%string.
Proof.
  induction a as [|c a IH]; cbn [append JS.deleteAll]; [reflexivity|].
  destruct (p c); [exact IH | cbn [append]; now rewrite IH].
Qed.

Lemma length_drop (n : nat) (s : string) :
  String.length (JS.drop n s) = String.length s - n.
Proof.
  revert s. induction n as [|n IH]; intros [|c s]; cbn; try reflexivity.
  apply IH.
Qed.

(** X6: the key of a caller is never longer than ten characters, and it is
    the last ten digits of the phone: when a phone ends with a part that
    holds exactly ten digits, in any punctuation, the key is those ten
    digits, whatever stands before (a country code, for one). *)
Theorem normalizePhone_last_ten (pre s d : string) :
  JS.deleteAll JS.isNonDigit s = d ->
  String.length d = 10 ->
  CsvExport.normalizePhone (Some (pre ++ s)%string) = d
  /\ forall o, String.length (CsvExport.normalizePhone o) <= 10.
Proof.
  intros D L. split.
  - assert (T : JS.truthyStr (pre ++ s) = true).
    { destruct pre; [|reflexivity]. destruct s; [|reflexivity].
      cbn in D. subst d. discriminate L. }
    unfold CsvExport.normalizePhone. rewrite T. unfold JS.sliceLast.
    rewrite deleteAll_app, D, length_append, L.
    replace (String.length (JS.deleteAll JS.isNonDigit pre) + 10 - 10)
      with (String.length (JS.deleteAll JS.isNonDigit pre)) by lia.
    apply drop_length_app.
  - intros [p|]; [|cbn; lia]. unfold CsvExport.normalizePhone.
    destruct (JS.truthyStr p); [|cbn; lia].
    unfold JS.sliceLast. rewrite length_drop. lia.
Qed.

Lemma normalizePhone_last_ten_witness :
  CsvExport.normalizePhone (Some ("+1 " ++ "(555) 123-4567")%string)
  = "5551234567"
  /\ forall o, String.length (CsvExport.normalizePhone o) <= 10.
Proof.
  apply (normalizePhone_last_ten "+1 " "(555) 123-4567" "5551234567");
    reflexivity.
Defined.

(** ** Scores, tiers and values *)

Lemma multiplier_monotone (p q : Q) :
  (p <= q)%Q ->
  (JS.orNum (JS.get CsvExport.CONFIG.tiers (CsvExport.getTier p)) 0
   <= JS.orNum (JS.get CsvExport.CONFIG.tiers (CsvExport.getTier q)) 0)%Q.
Proof.
  intro L. unfold CsvExport.getTier.
  destruct (JS.ge p 80) eqn:P80;
    [|destruct (JS.ge p 60) eqn:P60;
      [|destruct (JS.ge p 40) eqn:P40;
        [|destruct (JS.ge p 20) eqn:P20]]];
    (destruct (JS.ge q 80) eqn:Q80;
     [|destruct (JS.ge q 60) eqn:Q60;
       [|destruct (JS.ge q 40) eqn:Q40;
         [|destruct (JS.ge q 20) eqn:Q20]]]);
    repeat match goal with
           | H : JS.ge _ _ = true |- _ => apply ge_true in H
           | H : JS.ge _ _ = false |- _ => apply ge_false in H
           end;
    first [ exfalso; lra | vm_compute; discriminate ].
Qed.

(** X7: the classifier is monotone: a higher score never gets a tier with a
    smaller multiplier, and every score gets one of the five tiers of the
    multiplier table. *)
Theorem getTier_monotone (p q : Q) :
  (p <= q)%Q ->
  (JS.orNum (JS.get CsvExport.CONFIG.tiers (CsvExport.getTier p)) 0
   <= JS.orNum (JS.get CsvExport.CONFIG.tiers (CsvExport.getTier q)) 0)%Q
  /\ In (CsvExport.getTier p) (map fst CsvExport.CONFIG.tiers).
Proof.
  intro L. split; [now apply multiplier_monotone|].
  unfold CsvExport.getTier.
  repeat match goal with
         | |- context [JS.ge p ?b] => destruct (JS.ge p b)
         end; cbn; tauto.
Qed.

Lemma getTier_monotone_witness :
  (JS.orNum (JS.get CsvExport.CONFIG.tiers (CsvExport.getTier 39.9)) 0
   <= JS.orNum (JS.get CsvExport.CONFIG.tiers (CsvExport.getTier 40)) 0)%Q
  /\ In (CsvExport.getTier 39.9) (map fst CsvExport.CONFIG.tiers).
Proof. apply (getTier_monotone 39.9 40). vm_compute. discriminate. Defined.

Lemma getTier_compat (p q : Q) :
  (p == q)%Q -> CsvExport.getTier p = CsvExport.getTier q.
Proof.
  intro E. unfold CsvExport.getTier.
  destruct (JS.ge p 80) eqn:P80;
    [|destruct (JS.ge p 60) eqn:P60;
      [|destruct (JS.ge p 40) eqn:P40;
        [|destruct (JS.ge p 20) eqn:P20]]];
    (destruct (JS.ge q 80) eqn:Q80;
     [|destruct (JS.ge q 60) eqn:Q60;
       [|destruct (JS.ge q 40) eqn:Q40;
         [|destruct (JS.ge q 20) eqn:Q20]]]);
    repeat match goal with
           | H : JS.ge _ _ = true |- _ => apply ge_true in H
           | H : JS.ge _ _ = false |- _ => apply ge_false in H
           end;
    first [ reflexivity | exfalso; lra ].
Qed.

(** X8: the tier of a group does not depend on the order of its calls: two
    groups that hold the same calls have equal best scores and the same
    tier.  (The chosen product does depend on the order.) *)
Theorem groupTier_permutation (g g' : CsvExport.group) :
  Permutation g g' ->
  (fst (CsvExport.best g) == fst (CsvExport.best g'))%Q
  /\ CsvExport.groupTier g = CsvExport.groupTier g'.
Proof.
  intro P.
  assert (Le : forall h h' : CsvExport.group,
             Permutation h h' ->
             (fst (CsvExport.best h) <= fst (CsvExport.best h'))%Q).
  { intros h h' Ph. unfold CsvExport.best.
    destruct (scan_best_score h 0%Q "default") as (_ & _ & At).
    destruct (scan_best_score h' 0%Q "default") as (Lo' & Up' & _).
    destruct At as [-> | (g1 & c & x & g2 & E & Sc & _)]; [exact Lo'|].
    apply (Up' c x); [|exact Sc].
    apply (Permutation_in _ Ph). rewrite E. apply in_elt. }
  assert (E : (fst (CsvExport.best g) == fst (CsvExport.best g'))%Q).
  { apply Qle_antisym; [now apply Le | apply Le; now symmetry]. }
  split; [exact E | now apply getTier_compat].
Qed.

Lemma groupTier_permutation_witness :
  let a := withScore blank (ScoreNumber 45) in
  let b := withScore blank (ScoreString "good") in
  (fst (CsvExport.best [(a, "x"); (b, "y")])
   == fst (CsvExport.best [(b, "y"); (a, "x")]))%Q
  /\ CsvExport.groupTier [(a, "x"); (b, "y")]
     = CsvExport.groupTier [(b, "y"); (a, "x")].
Proof. intros a b. apply groupTier_permutation. apply perm_swap. Defined.

(** X9: a further call never lowers what a caller is worth in score: the
    best score of a group with more calls at its end is at least as high,
    and so is the multiplier of its tier. *)
Theorem best_score_grows (g more : CsvExport.group) :
  (fst (CsvExport.best g) <= fst (CsvExport.best (g ++ more)))%Q
  /\ (JS.orNum (JS.get CsvExport.CONFIG.tiers (CsvExport.groupTier g)) 0
      <= JS.orNum
           (JS.get CsvExport.CONFIG.tiers (CsvExport.groupTier (g ++ more)))
           0)%Q.
Proof.
  assert (L : (fst (CsvExport.best g)
               <= fst (CsvExport.best (g ++ more)))%Q).
  { unfold CsvExport.best at 2. rewrite fold_left_app.
    fold (CsvExport.best g).
    rewrite (surjective_pairing (CsvExport.best g)).
    cbn [fst]. apply scan_best_score. }
  split; [exact L | now apply multiplier_monotone].
Qed.

(** X10: rounding the total of a group to cents never changes it: the
    total is the price of the chosen product times the multiplier of the
    tier, exactly; it lies between 0 and the price, and the price is one of
    the catalog, at most 10995. *)
Theorem groupTotal_exact (g : CsvExport.group) :
  (CsvExport.groupTotal g
   == CsvExport.groupPrice g
      * JS.orNum (JS.get CsvExport.CONFIG.tiers (CsvExport.groupTier g)) 0)%Q
  /\ (0 <= CsvExport.groupTotal g)%Q
  /\ (CsvExport.groupTotal g <= CsvExport.groupPrice g)%Q
  /\ (895 <= CsvExport.groupPrice g)%Q
  /\ (CsvExport.groupPrice g <= 10995)%Q.
Proof.
  unfold CsvExport.groupTotal.
  pose proof (groupPrice_in_catalog g) as P.
  set (price := CsvExport.groupPrice g) in *.
  assert (T : In (CsvExport.groupTier g) (map fst CsvExport.CONFIG.tiers)).
  { unfold CsvExport.groupTier, CsvExport.getTier.
    repeat match goal with
           | |- context [JS.ge ?p ?b] => destruct (JS.ge p b)
           end; cbn; tauto. }
  set (t := CsvExport.groupTier g) in *.
  cbn [map snd fst CsvExport.CONFIG.products CsvExport.CONFIG.tiers In]
    in P, T.
  repeat (destruct T as [<- | T]; [|]); [| | | | |destruct T];
    repeat (destruct P as [<- | P];
            [vm_compute; repeat split; discriminate|]);
    destruct P.
Qed.

(** X11: a caller is without value exactly when the best score of the
    group is below 20; every other group is worth at least 223.75, a
    quarter of the cheapest product of the catalog. *)
Theorem group_without_value (g : CsvExport.group) :
  (JS.le (CsvExport.groupTotal g) 0 = true
   <-> (fst (CsvExport.best g) < 20)%Q)
  /\ (JS.le (CsvExport.groupTotal g) 0 = false
      -> (22375 # 100 <= CsvExport.groupTotal g)%Q).
Proof.
  split; [apply groupTotal_zero_iff|].
  unfold CsvExport.groupTotal, CsvExport.groupTier, CsvExport.getTier.
  pose proof (groupPrice_in_catalog g) as P.
  set (b := fst (CsvExport.best g)).
  set (price := CsvExport.groupPrice g) in *.
  cbn [map snd CsvExport.CONFIG.products In] in P.
  destruct (JS.ge b 80);
    [|destruct (JS.ge b 60);
      [|destruct (JS.ge b 40); [|destruct (JS.ge b 20)]]];
    repeat (destruct P as [<- | P];
            [intro H; try discriminate H; vm_compute; discriminate|]);
    destruct P.
Qed.

(** ** The groups of a run *)

Lemma get_assign {A : Type} (o : list (string * A)) (k k' : string) (v : A) :
  JS.get (JS.assign o k v) k'
  = if String.eqb k k' then Some v else JS.get o k'.
Proof.
  induction o as [|[k0 v0] o IH]; cbn [JS.assign JS.get]; [reflexivity|].
  destruct (String.eqb_spec k0 k) as [-> | N]; cbn [JS.get].
  - now destruct (String.eqb k k').
  - rewrite IH. destruct (String.eqb_spec k0 k') as [-> | N'];
      [|reflexivity].
    destruct (String.eqb_spec k k') as [-> | _]; [congruence | reflexivity].
Qed.

Lemma keys_assign {A : Type} (o : list (string * A)) (k : string) (v : A) :
  map fst (JS.assign o k v)
  = match JS.get o k with
    | Some _ => map fst o
    | None => map fst o ++ [k]
    end.
Proof.
  induction o as [|[k0 v0] o IH]; cbn [JS.assign JS.get map fst];
    [reflexivity|].
  destruct (String.eqb_spec k0 k) as [-> | N]; cbn [map fst];
    [reflexivity|].
  rewrite IH. now destruct (JS.get o k).
Qed.

Lemma get_none_keys {A : Type} (o : list (string * A)) (k : string) :
  JS.get o k = None -> ~ In k (map fst o).
Proof.
  induction o as [|[k0 v0] o IH]; cbn [JS.get map fst]; [intros _ []|].
  destruct (String.eqb_spec k0 k) as [-> | N]; [discriminate|].
  intros G [E | I]; [congruence | now apply IH].
Qed.

Lemma get_in {A : Type} (o : list (string * A)) (k : string) (v : A) :
  JS.get o k = Some v -> In (k, v) o.
Proof.
  induction o as [|[k0 v0] o IH]; cbn [JS.get]; [discriminate|].
  destruct (String.eqb_spec k0 k) as [-> | N].
  - intro E. injection E as ->. now left.
  - intro E. right. now apply IH.
Qed.

Lemma in_get {A : Type} (o : list (string * A)) (k : string) (v : A) :
  NoDup (map fst o) -> In (k, v) o -> JS.get o k = Some v.
Proof.
  induction o as [|[k0 v0] o IH]; cbn [JS.get map fst]; [intros _ []|].
  intros Nd [E | I].
  - injection E as -> ->. now rewrite String.eqb_refl.
  - inversion Nd as [|? ? Nk Nd']; subst.
    destruct (String.eqb_spec k0 k) as [-> | N]; [|now apply IH].
    exfalso. apply Nk. apply (in_map fst) in I. exact I.
Qed.

(** The calls of the input that have an identifier, each with it. *)
Local Abbreviation identified calls :=
  (flat_map
     (fun c : call =>
        match CsvExport.extractGclid c with
        | Some x => if JS.truthyStr x then [(c, x)] else []
        | None => []
        end) calls).

(** The test that an identified call has the key [k]. *)
Local Abbreviation keyed k :=
  (fun e : call * string =>
     String.eqb (CsvExport.normalizePhone (customer_phone_number (fst e))) k).

Lemma collect_groups (calls : list call) :
  forall (n : nat) (o : list (string * CsvExport.group))
         (seen : list (call * string)),
    NoDup (map fst o) ->
    (forall k, JS.get o k
               = match filter (keyed k) seen with
                 | [] => None
                 | g => Some g
                 end) ->
    let o' := snd (fold_left CsvExport.collect calls (n, o)) in
    NoDup (map fst o')
    /\ forall k, JS.get o' k
                 = match filter (keyed k) (seen ++ identified calls) with
                   | [] => None
                   | g => Some g
                   end.
Proof.
  induction calls as [|c calls IH]; intros n o seen Nd Inv; cbv zeta.
  - cbn [fold_left snd flat_map]. rewrite app_nil_r. now split.
  - cbn [fold_left flat_map].
    destruct (JS.truthyOptStr (CsvExport.extractGclid c)) eqn:T.
    + destruct (collect_keep n o c T) as (x & X & ->).
      rewrite X. assert (Tx : JS.truthyStr x = true) by now rewrite X in T.
      rewrite Tx.
      set (ph := CsvExport.normalizePhone (customer_phone_number c)).
      replace (seen ++ [(c, x)] ++ identified calls)
        with ((seen ++ [(c, x)]) ++ identified calls)
        by now rewrite <- app_assoc.
      apply IH.
      * rewrite keys_assign. destruct (JS.get o ph) eqn:G; [exact Nd|].
        apply NoDup_app; [exact Nd | repeat constructor; intros [] |].
        intros k I [<- | []]. now apply (get_none_keys o ph G).
      * intro k. rewrite get_assign, filter_app. cbn [filter fst].
        fold ph. destruct (String.eqb_spec ph k) as [<- | N].
        -- rewrite (Inv ph).
           destruct (filter (keyed ph) seen); reflexivity.
        -- rewrite app_nil_r. apply Inv.
    + rewrite (collect_skip (n, o) c T).
      replace (match CsvExport.extractGclid c with
               | Some x => if JS.truthyStr x then [(c, x)] else []
               | None => []
               end) with (@nil (call * string)).
      * now apply IH.
      * destruct (CsvExport.extractGclid c) as [x|]; [|reflexivity].
        cbn in T. now rewrite T.
Qed.

(** X12: the grouping loop builds exactly the classes of the calls that
    have an identifier, by normalized phone: no key occurs twice, and
    [(k, g)] is a group of the run exactly when [g] is not empty and is the
    list of the identified calls whose phone normalizes to [k], in the
    order of the input. *)
Theorem callerGroups_by_phone (calls : list call) :
  let groups := snd (fold_left CsvExport.collect calls (0, [])) in
  NoDup (map fst groups)
  /\ forall k g,
       In (k, g) groups
       <-> g <> [] /\ g = filter (keyed k) (identified calls).
Proof.
  cbv zeta.
  destruct (collect_groups calls 0 [] [] (NoDup_nil _) (fun _ => eq_refl))
    as [Nd Get].
  cbv zeta in Nd, Get. cbn [app] in Get. split; [exact Nd|].
  intros k g. split.
  - intro I. apply (in_get _ _ _ Nd) in I. rewrite Get in I.
    destruct (filter (keyed k) (identified calls)) as [|e f];
      [discriminate I|].
    injection I as <-. split; [discriminate | reflexivity].
  - intros [Ne ->]. apply get_in. rewrite Get.
    destruct (filter (keyed k) (identified calls)); [congruence|].
    reflexivity.
Qed.

Lemma callerGroups_by_phone_witness :
  let a := withGclid (withPhone blank (Some "(555) 123-4567")) "g1" in
  let b := withGclid (withPhone blank (Some "602-555-0100")) "g2" in
  let c := withGclid (withPhone blank (Some "555.123.4567")) "g3" in
  In ("5551234567", [(a, "g1"); (c, "g3")])
    (snd (fold_left CsvExport.collect [a; blank; b; c] (0, []))).
Proof.
  intros a b c.
  apply (proj2 (callerGroups_by_phone [a; blank; b; c])).
  split; [discriminate | reflexivity].
Defined.

(** ** The report of a run *)

Lemma round2_nonneg (y : Q) : (0 <= y)%Q -> (0 <= CsvExport.round2 y)%Q.
Proof.
  intro H. unfold CsvExport.round2, JS.Math_round.
  assert (Z0 : (0 <= Qfloor (y * 100 + (1 # 2)))%Z).
  { change 0%Z with (Qfloor 0). apply Qfloor_resp_le. lra. }
  rewrite Zle_Qle in Z0. change (inject_Z 0) with 0%Q in Z0.
  set (z := inject_Z (Qfloor (y * 100 + (1 # 2)))) in *.
  unfold Qdiv. setoid_replace (/ 100)%Q with (1 # 100)%Q by reflexivity.
  lra.
Qed.

Lemma sum_values_app (l l' : list Q) :
  (fold_right Qplus 0 (l ++ l')
   == fold_right Qplus 0 l + fold_right Qplus 0 l')%Q.
Proof.
  induction l as [|q l IH]; cbn [app fold_right]; [ring|].
  rewrite IH. ring.
Qed.

Lemma processGroups_total (newDate : option string -> option CsvExport.date)
    (gs : list CsvExport.group) :
  forall (s : CsvExport.stats) (out : list CsvExport.Conversion.t),
    (CsvExport.totalValue
       (fst (fold_left (CsvExport.processGroup newDate) gs (s, out)))
     == CsvExport.totalValue s
        + fold_right Qplus 0
            (map CsvExport.Conversion.conversionValue
               (flat_map
                  (fun g =>
                     if JS.le (CsvExport.groupTotal g) 0 then []
                     else map (CsvExport.conversionOf newDate g) g) gs)))%Q.
Proof.
  induction gs as [|g gs IH]; intros s out.
  - cbn. ring.
  - cbn [fold_left flat_map].
    destruct (CsvExport.processGroup newDate (s, out) g) as [s1 out1] eqn:E.
    pose proof (processGroup_spec newDate g s out) as P. cbv zeta in P.
    rewrite E in P. cbn [fst snd] in P.
    destruct P as (_ & _ & _ & _ & _ & P6).
    rewrite IH, P6, map_app, sum_values_app.
    destruct (JS.le (CsvExport.groupTotal g) 0).
    + cbn. ring.
    + rewrite sum_of_equal_values. ring.
Qed.

(** X13: the cumulative value a run reports is the sum of the values of the
    conversions it emits, and no conversion has a negative value. *)
Theorem totalValue_is_sum (newDate : option string -> option CsvExport.date)
    (calls : list call) :
  let r := CsvExport.process newDate calls in
  (CsvExport.totalValue (fst (fst r))
   == fold_right Qplus 0
        (map CsvExport.Conversion.conversionValue (snd (fst r))))%Q
  /\ forall cv, In cv (snd (fst r)) ->
       (0 <= CsvExport.Conversion.conversionValue cv)%Q.
Proof.
  cbv zeta. split.
  - rewrite process_conversions, process_unfold. cbv zeta. cbn [fst].
    rewrite processGroups_total.
    cbn [CsvExport.totalValue]. ring.
  - rewrite process_conversions. intros cv I. apply in_flat_map in I.
    destruct I as (g & _ & I).
    destruct (JS.le (CsvExport.groupTotal g) 0) eqn:Z; [destruct I|].
    apply le_false in Z. apply in_map_iff in I.
    destruct I as ([c x] & <- & J).
    cbn [CsvExport.conversionOf CsvExport.Conversion.conversionValue].
    unfold CsvExport.perCall. apply round2_nonneg.
    apply Qle_shift_div_l.
    + change 0%Q with (inject_Z 0). rewrite <- Zlt_Qlt.
      destruct g; [destruct J | cbn [List.length]; lia].
    + lra.
Qed.



(** ** The time of a conversion *)

Lemma two_shape (n : Z) :
  (0 <= n <= 99)%Z ->
  exists a b,
    CsvExport.two n = String a (String b "")
    /\ JS.isDigit a = true /\ JS.isDigit b = true.
Proof.
  intro R.
  assert (All : forallb
                  (fun k =>
                     match CsvExport.two (Z.of_nat k) with
                     | String a (String b EmptyString) =>
                         JS.isDigit a && JS.isDigit b
                     | _ => false
                     end) (seq 0 100) = true) by (vm_compute; reflexivity).
  rewrite forallb_forall in All.
  specialize (All (Z.to_nat n)). rewrite Z2Nat.id in All by lia.
  assert (I : In (Z.to_nat n) (seq 0 100)) by (apply in_seq; lia).
  specialize (All I).
  destruct (CsvExport.two n) as [|a [|b [|]]]; try discriminate All.
  apply andb_true_iff in All. now exists a, b.
Qed.

Lemma year_shape (y : Z) :
  (1000 <= y <= 9999)%Z ->
  exists a b c d,
    JS.stringOfInt y = String a (String b (String c (String d "")))
    /\ JS.isDigit a = true /\ JS.isDigit b = true
    /\ JS.isDigit c = true /\ JS.isDigit d = true.
Proof.
  intro R.
  assert (All : forallb
                  (fun k =>
                     match JS.stringOfInt (Z.of_nat k) with
                     | String a (String b (String c (String d EmptyString)))
                       => JS.isDigit a && JS.isDigit b && JS.isDigit c
                          && JS.isDigit d
                     | _ => false
                     end) (seq 1000 (90 * 100)) = true)
    by (vm_compute; reflexivity).
  rewrite forallb_forall in All.
  specialize (All (Z.to_nat y)). rewrite Z2Nat.id in All by lia.
  assert (I : In (Z.to_nat y) (seq 1000 (90 * 100)))
    by (apply in_seq; lia).
  specialize (All I).
  destruct (JS.stringOfInt y) as [|a [|b [|c [|d [|]]]]];
    try discriminate All.
  do 3 (apply andb_true_iff in All; destruct All as [All ?]).
  exists a, b, c, d. repeat split; assumption.
Qed.

(** X15: for a valid date whose local fields are in their ranges and whose
    year has four digits, both handlers render the time of a conversion
    from the same 19 characters "yyyy-MM-dd HH:mm:ss", digits throughout
    but for the separators, with the month counted from 1; the CSV export
    ends them with "-0700" and the spreadsheet sync with "-07:00",
    whatever the time zone of the host. *)
Theorem formatGoogleAdsTime_shape
    (newDate : option string -> option CsvExport.date)
    (isoString : option string) (d : CsvExport.date) :
  newDate isoString = Some d ->
  (1000 <= CsvExport.getFullYear d <= 9999)%Z ->
  (0 <= CsvExport.getMonth d <= 11)%Z ->
  (1 <= CsvExport.getDate d <= 31)%Z ->
  (0 <= CsvExport.getHours d <= 23)%Z ->
  (0 <= CsvExport.getMinutes d <= 59)%Z ->
  (0 <= CsvExport.getSeconds d <= 59)%Z ->
  exists body,
    String.length body = 19
    /\ CsvExport.formatGoogleAdsTime newDate isoString
       = (body ++ "-0700")%string
    /\ SheetsSync.formatGoogleAdsTime newDate isoString
       = (body ++ "-07:00")%string
    /\ JS.take 3 (JS.drop 5 body)
       = (CsvExport.two (CsvExport.getMonth d + 1) ++ "-")%string
    /\ forall i c, String.get i body = Some c ->
         match i with
         | 4 | 7 => c = "-"%char
         | 10 => c = " "%char
         | 13 | 16 => c = ":"%char
         | _ => JS.isDigit c = true
         end.
Proof.
  intros V Ry Rm Rd Rh Rmi Rs.
  unfold CsvExport.formatGoogleAdsTime, SheetsSync.formatGoogleAdsTime.
  rewrite V.
  destruct (year_shape _ Ry) as (y1 & y2 & y3 & y4 & -> & ? & ? & ? & ?).
  destruct (two_shape (CsvExport.getMonth d + 1) ltac:(lia))
    as (m1 & m2 & Em & ? & ?).
  destruct (two_shape _ (conj (Z.le_trans _ _ _ (Z.le_0_1) (proj1 Rd))
                              (Z.le_trans _ _ 99 (proj2 Rd) ltac:(lia))))
    as (d1 & d2 & -> & ? & ?).
  destruct (two_shape (CsvExport.getHours d) ltac:(lia))
    as (h1 & h2 & -> & ? & ?).
  destruct (two_shape (CsvExport.getMinutes d) ltac:(lia))
    as (n1 & n2 & -> & ? & ?).
  destruct (two_shape (CsvExport.getSeconds d) ltac:(lia))
    as (s1 & s2 & -> & ? & ?).
  rewrite Em. cbn [append].
  eexists (String y1 (String y2 (String y3 (String y4 (String "-"
            (String m1 (String m2 (String "-" (String d1 (String d2
            (String " " (String h1 (String h2 (String ":" (String n1
            (String n2 (String ":" (String s1 (String s2 ""))))))))))))))))))).
  split; [reflexivity|]. split; [reflexivity|]. split; [reflexivity|].
  split; [reflexivity|].
  intros i c G.
  do 19 (destruct i as [|i];
         [cbn in G; injection G as <-; first [assumption | reflexivity]|]).
  cbn in G. discriminate G.
Qed.

Lemma formatGoogleAdsTime_shape_witness :
  exists body,
    String.length body = 19
    /\ CsvExport.formatGoogleAdsTime
         (fun _ =>
            Some {| CsvExport.getFullYear := 2026; CsvExport.getMonth := 0;
                    CsvExport.getDate := 9; CsvExport.getHours := 14;
                    CsvExport.getMinutes := 5; CsvExport.getSeconds := 0 |})
         (Some "2026-01-09T21:05:00Z")
       = (body ++ "-0700")%string.
Proof.
  destruct (formatGoogleAdsTime_shape
              (fun _ =>
                 Some {| CsvExport.getFullYear := 2026;
                         CsvExport.getMonth := 0;
                         CsvExport.getDate := 9; CsvExport.getHours := 14;
                         CsvExport.getMinutes := 5;
                         CsvExport.getSeconds := 0 |})
              (Some "2026-01-09T21:05:00Z") _ eq_refl
              ltac:(cbn; lia) ltac:(cbn; lia) ltac:(cbn; lia)
              ltac:(cbn; lia) ltac:(cbn; lia) ltac:(cbn; lia))
    as (body & L & E & _).
  exists body. split; [exact L | exact E].
Defined.

(** ** Finding the product *)

Lemma space_not_digit (a : ascii) :
  JS.isSpace a = true -> JS.isDigit a = false.
Proof.
  intro S. destruct (JS.isDigit a) eqn:D; [|reflexivity].
  rewrite (digit_not_space a D) in S. discriminate S.
Qed.

(** X16: a catalog size written as "<N> hp", with any white space between
    the number and "hp", is detected whenever no digit stands before it in
    the search text: the product is that size. *)
Theorem detectProduct_finds_hp (c : call) (pre k ws post : string) :
  CsvExport.searchText c = (pre ++ k ++ ws ++ "hp" ++ post)%string ->
  JS.forallChars JS.isNonDigit pre = true ->
  k <> "" ->
  JS.forallChars JS.isDigit k = true ->
  JS.forallChars JS.isSpace ws = true ->
  CsvExport.inCatalog k = true ->
  CsvExport.detectProduct c = k.
Proof.
  intros T Pre Nk Dk Ws Cat.
  assert (S1 : JS.span JS.isDigit (k ++ ws ++ "hp" ++ post) = String.length k
               /\ JS.take (String.length k) (k ++ ws ++ "hp" ++ post) = k).
  { apply span_app_stop; [exact Dk|]. right.
    destruct ws as [|a t]; [now exists "h"%char, (String "p" post)|].
    exists a, (t ++ "hp" ++ post)%string. split; [reflexivity|].
    cbn [JS.forallChars] in Ws. apply andb_true_iff in Ws.
    now apply space_not_digit. }
  assert (S2 : JS.span JS.isSpace (ws ++ "hp" ++ post) = String.length ws).
  { apply span_app_stop; [exact Ws|]. right.
    now exists "h"%char, (String "p" post). }
  destruct S1 as [S1 Tk].
  assert (E : JS.exec
                {| JS.re_nodes :=
                     JS.GroupPlus JS.isDigit :: JS.Star JS.isSpace
                     :: JS.lit "hp";
                   JS.re_ignoreCase := true |} (CsvExport.searchText c)
              = Some (Some k)).
  { rewrite T.
    apply (exec_found _ _ (String.length pre)); cbn [JS.re_nodes
      JS.re_ignoreCase].
    - rewrite length_append. lia.
    - rewrite drop_length_app. apply hp_match_shape.
      rewrite S1, Tk, drop_length_app, S2, drop_length_app.
      split; [destruct k; [congruence | cbn; lia]|].
      split; [reflexivity|]. now exists "h"%char, "p"%char, post.
    - intros j J.
      destruct (JS.matchHere true _ (JS.drop j _) None) as [m|] eqn:M;
        [|reflexivity].
      exfalso. apply hp_match_shape in M. destruct M as (D1 & _).
      rewrite drop_app_le in D1 by lia.
      destruct (drop_nonempty j pre J) as (c0 & p' & Dp).
      pose proof (drop_forallChars JS.isNonDigit j pre Pre) as F.
      rewrite Dp in F, D1. cbn [JS.forallChars] in F.
      apply andb_true_iff in F. destruct F as [F _].
      unfold JS.isNonDigit in F. apply negb_true_iff in F.
      cbn [append JS.span] in D1. rewrite F in D1. lia. }
  unfold CsvExport.detectProduct, CsvExport.hpPatterns.
  cbn [CsvExport.firstHit]. now rewrite E, Cat.
Qed.

Lemma detectProduct_finds_hp_witness :
  CsvExport.detectProduct
    (withNote blank "Customer: needs a 7  HP rotary, or the 25hp")
  = "7".
Proof.
  apply (detectProduct_finds_hp _ " customer: needs a " "7" "  "
           " rotary, or the 25hp "); reflexivity || discriminate.
Defined.

(** ** The spreadsheet sync *)

Lemma sheets_price_in_catalog (c : call) :
  In (SheetsSync.ValueData.productPrice (SheetsSync.calculateValue c))
    (map snd SheetsSync.CONFIG.products).
Proof.
  cbn [SheetsSync.calculateValue SheetsSync.ValueData.productPrice].
  unfold JS.orNum.
  destruct (JS.get SheetsSync.CONFIG.products (SheetsSync.detectProduct c))
    as [v|] eqn:E.
  - destruct (JS.truthyNum v); [now apply (get_in_values _ _ _ E)|].
    cbn. tauto.
  - cbn. tauto.
Qed.

Lemma tierOf_names (label : string) (p : Q) :
  In (SheetsSync.tierOf label p) (map fst SheetsSync.CONFIG.tiers)
  /\ (SheetsSync.tierOf label p = "very_poor"
      <-> String.eqb label "very_poor" || JS.lt p 20 = true).
Proof.
  unfold SheetsSync.tierOf.
  destruct (String.eqb label "very_poor" || JS.lt p 20);
    [cbn; intuition|].
  repeat match goal with
         | |- context [if ?b then _ else _] => destruct b
         end; cbn; (split; [tauto | split; discriminate]).
Qed.

(** X17: [calculateValue] always names one of the five tiers and takes the
    price from the catalog; its value is the price times the multiplier of
    the tier, exactly, between 0 and the price; the value is 0 exactly for
    the tier very_poor, which is assigned exactly when the label is
    "very_poor" or the percent is below 20. *)
Theorem calculateValue_range (c : call) :
  let v := SheetsSync.calculateValue c in
  In (SheetsSync.ValueData.tier v) (map fst SheetsSync.CONFIG.tiers)
  /\ In (SheetsSync.ValueData.productPrice v)
       (map snd SheetsSync.CONFIG.products)
  /\ (SheetsSync.ValueData.value v
      == SheetsSync.ValueData.productPrice v
         * SheetsSync.ValueData.multiplier v)%Q
  /\ (0 <= SheetsSync.ValueData.value v)%Q
  /\ (SheetsSync.ValueData.value v <= SheetsSync.ValueData.productPrice v)%Q
  /\ (JS.le (SheetsSync.ValueData.value v) 0 = true
      <-> SheetsSync.ValueData.tier v = "very_poor")
  /\ (SheetsSync.ValueData.tier v = "very_poor"
      <-> SheetsSync.scoreValue c = "very_poor"
          \/ (SheetsSync.scorePercent c < 20)%Q).
Proof.
  cbv zeta.
  pose proof (sheets_price_in_catalog c) as P.
  destruct (tierOf_names (SheetsSync.scoreValue c) (SheetsSync.scorePercent c))
    as [T V].
  cbn [SheetsSync.calculateValue SheetsSync.ValueData.tier
       SheetsSync.ValueData.productPrice SheetsSync.ValueData.value
       SheetsSync.ValueData.multiplier] in *.
  set (price := JS.orNum _ SheetsSync.CONFIG.products_default) in *.
  set (t := SheetsSync.tierOf _ _) in *.
  split; [exact T|]. split; [exact P|].
  assert (R : (CsvExport.round2
                 (price * JS.orNum (JS.get SheetsSync.CONFIG.tiers t) 0)
               == price * JS.orNum (JS.get SheetsSync.CONFIG.tiers t) 0)%Q
              /\ (0 <= CsvExport.round2
                         (price
                          * JS.orNum (JS.get SheetsSync.CONFIG.tiers t) 0))%Q
              /\ (CsvExport.round2
                    (price * JS.orNum (JS.get SheetsSync.CONFIG.tiers t) 0)
                  <= price)%Q
              /\ (JS.le
                    (CsvExport.round2
                       (price
                        * JS.orNum (JS.get SheetsSync.CONFIG.tiers t) 0)) 0
                  = true <-> t = "very_poor")).
  { clear V.
    cbn [map snd fst SheetsSync.CONFIG.products SheetsSync.CONFIG.tiers In]
      in P, T.
    repeat (destruct T as [<- | T]; [|]); [| | | | |destruct T];
      repeat (destruct P as [<- | P];
              [vm_compute; repeat split; discriminate|]);
      destruct P. }
  destruct R as (R1 & R2 & R3 & R4).
  split; [exact R1|]. split; [exact R2|]. split; [exact R3|].
  split; [exact R4|].
  rewrite V, orb_true_iff, lt_true.
  split; (intros [E | L]; [left | now right]).
  - now apply String.eqb_eq.
  - now apply String.eqb_eq.
Qed.

(** X18: in the spreadsheet sync a percent below 20 beats every label, and
    a lead score that is not a structured value counts as percent 0: such a
    call is classified very_poor, valued 0, and left out of the
    conversions, though it is counted as a call with an identifier. *)
Theorem calculateValue_low_percent
    (newDate : option string -> option CsvExport.date) (c : call)
    (s : CsvExport.stats) (out : list SheetsSync.Conversion.t) :
  (forall o, lead_score c = ScoreObject o ->
             (JS.orNum (percent o) 0 < 20)%Q) ->
  SheetsSync.ValueData.tier (SheetsSync.calculateValue c) = "very_poor"
  /\ (SheetsSync.ValueData.value (SheetsSync.calculateValue c) == 0)%Q
  /\ snd (SheetsSync.step newDate (s, out) c) = out
  /\ CsvExport.withValue (fst (SheetsSync.step newDate (s, out) c))
     = CsvExport.withValue s.
Proof.
  intro Low.
  assert (L : JS.lt (SheetsSync.scorePercent c) 20 = true).
  { apply lt_true. unfold SheetsSync.scorePercent.
    destruct (lead_score c) as [| | | |o]; try reflexivity.
    now apply Low. }
  assert (T : SheetsSync.ValueData.tier (SheetsSync.calculateValue c)
              = "very_poor").
  { cbn [SheetsSync.calculateValue SheetsSync.ValueData.tier].
    apply tierOf_names. rewrite L. apply orb_true_r. }
  assert (Z : JS.le (SheetsSync.ValueData.value (SheetsSync.calculateValue c))
                0 = true
              /\ (SheetsSync.ValueData.value (SheetsSync.calculateValue c)
                  == 0)%Q).
  { cbn [SheetsSync.calculateValue SheetsSync.ValueData.value
         SheetsSync.ValueData.tier] in *.
    rewrite T.
    pose proof (sheets_price_in_catalog c) as P.
    cbn [SheetsSync.calculateValue SheetsSync.ValueData.productPrice] in P.
    set (price := JS.orNum _ SheetsSync.CONFIG.products_default) in *.
    cbn [map snd SheetsSync.CONFIG.products In] in P.
    repeat (destruct P as [<- | P]; [split; reflexivity|]). destruct P. }
  destruct Z as [Z V].
  split; [exact T|]. split; [exact V|].
  unfold SheetsSync.step.
  destruct (CsvExport.extractGclid c) as [x|]; [|now split].
  destruct (JS.truthyStr x); [|now split].
  rewrite Z. now split.
Qed.

Lemma calculateValue_low_percent_witness :
  let c :=
    withGclid
      (withScore blank
         (ScoreObject {| value := Some "very_good"; percent := None;
                         score := Some 95%Q |})) "g1" in
  SheetsSync.ValueData.tier (SheetsSync.calculateValue c) = "very_poor"
  /\ snd (SheetsSync.step (fun _ => None)
            ({| CsvExport.totalCalls := 1; CsvExport.withGclid := 0;
                CsvExport.withValue := 0; CsvExport.zeroValue := 0;
                CsvExport.totalValue := 0 |}, []) c) = [].
Proof.
  intro c.
  destruct (calculateValue_low_percent (fun _ => None) c
              {| CsvExport.totalCalls := 1; CsvExport.withGclid := 0;
                 CsvExport.withValue := 0; CsvExport.zeroValue := 0;
                 CsvExport.totalValue := 0 |} [])
    as (T & _ & S & _).
  - intros o E. injection E as <-. reflexivity.
  - now split.
Defined.

Lemma sheets_step_from
    (newDate : option string -> option CsvExport.date) (c : call)
    (s s0 : CsvExport.stats) (out out0 : list SheetsSync.Conversion.t) :
  let r := SheetsSync.step newDate (s, out) c in
  let r0 := SheetsSync.step newDate (s0, out0) c in
  exists (emitted : list SheetsSync.Conversion.t) (g v z : nat),
    snd r = out ++ emitted /\ snd r0 = out0 ++ emitted
    /\ g = v + z /\ v = List.length emitted /\ g <= 1
    /\ CsvExport.totalCalls (fst r) = CsvExport.totalCalls s
    /\ CsvExport.totalCalls (fst r0) = CsvExport.totalCalls s0
    /\ CsvExport.withGclid (fst r) = CsvExport.withGclid s + g
    /\ CsvExport.withGclid (fst r0) = CsvExport.withGclid s0 + g
    /\ CsvExport.withValue (fst r) = CsvExport.withValue s + v
    /\ CsvExport.withValue (fst r0) = CsvExport.withValue s0 + v
    /\ CsvExport.zeroValue (fst r) = CsvExport.zeroValue s + z
    /\ CsvExport.zeroValue (fst r0) = CsvExport.zeroValue s0 + z.
Proof.
  cbv zeta. unfold SheetsSync.step.
  destruct (CsvExport.extractGclid c) as [x|];
    [destruct (JS.truthyStr x);
     [destruct (JS.le (SheetsSync.ValueData.value
                         (SheetsSync.calculateValue c)) 0)|]|];
    cbn [fst snd CsvExport.totalCalls CsvExport.withGclid
         CsvExport.withValue CsvExport.zeroValue].
  - exists [], 1, 0, 1. rewrite !app_nil_r.
    repeat split; try reflexivity; lia.
  - eexists [_], 1, 1, 0. repeat split; try reflexivity; lia.
  - exists [], 0, 0, 0. rewrite !app_nil_r.
    repeat split; try reflexivity; lia.
  - exists [], 0, 0, 0. rewrite !app_nil_r.
    repeat split; try reflexivity; lia.
Qed.

Lemma sheets_fold_from
    (newDate : option string -> option CsvExport.date) (calls : list call) :
  forall (s s0 : CsvExport.stats) (out out0 : list SheetsSync.Conversion.t),
    let r := fold_left (SheetsSync.step newDate) calls (s, out) in
    let r0 := fold_left (SheetsSync.step newDate) calls (s0, out0) in
    exists (emitted : list SheetsSync.Conversion.t) (g v z : nat),
      snd r = out ++ emitted /\ snd r0 = out0 ++ emitted
      /\ g = v + z /\ v = List.length emitted
      /\ g <= List.length calls
      /\ CsvExport.totalCalls (fst r) = CsvExport.totalCalls s
      /\ CsvExport.totalCalls (fst r0) = CsvExport.totalCalls s0
      /\ CsvExport.withGclid (fst r) = CsvExport.withGclid s + g
      /\ CsvExport.withGclid (fst r0) = CsvExport.withGclid s0 + g
      /\ CsvExport.withValue (fst r) = CsvExport.withValue s + v
      /\ CsvExport.withValue (fst r0) = CsvExport.withValue s0 + v
      /\ CsvExport.zeroValue (fst r) = CsvExport.zeroValue s + z
      /\ CsvExport.zeroValue (fst r0) = CsvExport.zeroValue s0 + z.
Proof.
  induction calls as [|c calls IH]; intros s s0 out out0; cbv zeta.
  - exists [], 0, 0, 0. cbn [fold_left fst snd List.length].
    rewrite !app_nil_r. repeat split; try reflexivity; lia.
  - cbn [fold_left].
    destruct (sheets_step_from newDate c s s0 out out0)
      as (e1 & g1 & v1 & z1 & A1 & A2 & A3 & A4 & A0 & A5 & A6 & A7 & A8
          & A9 & A10 & A11 & A12).
    destruct (SheetsSync.step newDate (s, out) c) as [t o].
    destruct (SheetsSync.step newDate (s0, out0) c) as [t0 o0].
    cbn [fst snd] in *. subst o o0.
    destruct (IH t t0 (out ++ e1) (out0 ++ e1))
      as (e2 & g2 & v2 & z2 & B1 & B2 & B3 & B4 & B0 & B5 & B6 & B7 & B8
          & B9 & B10 & B11 & B12).
    exists (e1 ++ e2), (g1 + g2), (v1 + v2), (z1 + z2).
    rewrite B1, B2, <- !app_assoc, length_app.
    cbn [List.length]. repeat split; try reflexivity; lia.
Qed.

Lemma sheets_process_counts
    (newDate : option string -> option CsvExport.date) (calls : list call) :
  CsvExport.withValue (fst (SheetsSync.process newDate calls))
  = List.length (snd (SheetsSync.process newDate calls)).
Proof.
  unfold SheetsSync.process.
  match goal with
  | |- context [fold_left _ calls (?i, [])] =>
      destruct (sheets_fold_from newDate calls i i [] [])
        as (e & g & v & z & A1 & _ & _ & A4 & _ & _ & _ & _ & _ & A9 & _)
  end.
  rewrite A1, A9, A4. reflexivity.
Qed.

(** X19: the spreadsheet sync values every call on its own: the
    conversions of two lists of calls fetched together are those of the
    first list followed by those of the second, and the counters add up.
    Its counters reconcile as well: the calls with an identifier are those
    with value plus those without, and the calls with value are as many as
    the conversions. *)
Theorem sheets_process_compositional
    (newDate : option string -> option CsvExport.date)
    (calls more : list call) :
  let r := SheetsSync.process newDate (calls ++ more) in
  let r1 := SheetsSync.process newDate calls in
  let r2 := SheetsSync.process newDate more in
  snd r = snd r1 ++ snd r2
  /\ CsvExport.totalCalls (fst r)
     = CsvExport.totalCalls (fst r1) + CsvExport.totalCalls (fst r2)
  /\ CsvExport.withGclid (fst r)
     = CsvExport.withGclid (fst r1) + CsvExport.withGclid (fst r2)
  /\ CsvExport.withValue (fst r)
     = CsvExport.withValue (fst r1) + CsvExport.withValue (fst r2)
  /\ CsvExport.zeroValue (fst r)
     = CsvExport.zeroValue (fst r1) + CsvExport.zeroValue (fst r2)
  /\ CsvExport.withGclid (fst r)
     = CsvExport.withValue (fst r) + CsvExport.zeroValue (fst r)
  /\ CsvExport.withValue (fst r) = List.length (snd r)
  /\ CsvExport.withGclid (fst r) <= CsvExport.totalCalls (fst r).
Proof.
  cbv zeta. unfold SheetsSync.process. rewrite fold_left_app.
  set (i := fun n =>
         {| CsvExport.totalCalls := n; CsvExport.withGclid := 0;
            CsvExport.withValue := 0; CsvExport.zeroValue := 0;
            CsvExport.totalValue := 0 |}).
  fold (i (List.length (calls ++ more))). fold (i (List.length calls)).
  fold (i (List.length more)).
  destruct (sheets_fold_from newDate calls
              (i (List.length (calls ++ more))) (i (List.length calls))
              [] [])
    as (e1 & g1 & v1 & z1 & A1 & A2 & A3 & A4 & A0 & A5 & A6 & A7 & A8
        & A9 & A10 & A11 & A12).
  destruct (fold_left (SheetsSync.step newDate) calls
              (i (List.length (calls ++ more)), [])) as [t o].
  destruct (fold_left (SheetsSync.step newDate) calls
              (i (List.length calls), [])) as [t1 o1].
  cbn [fst snd app i CsvExport.totalCalls CsvExport.withGclid
       CsvExport.withValue CsvExport.zeroValue] in *.
  destruct (sheets_fold_from newDate more t (i (List.length more)) o [])
    as (e2 & g2 & v2 & z2 & B1 & B2 & B3 & B4 & B0 & B5 & B6 & B7 & B8
        & B9 & B10 & B11 & B12).
  destruct (fold_left (SheetsSync.step newDate) more (t, o)) as [t' o'].
  destruct (fold_left (SheetsSync.step newDate) more
              (i (List.length more), [])) as [t2 o2].
  cbn [fst snd app i CsvExport.totalCalls CsvExport.withGclid
       CsvExport.withValue CsvExport.zeroValue] in *.
  subst. rewrite length_app in *. repeat split; try reflexivity; lia.
Qed.

(** X20: a dry run computes and reports exactly what a real run would:
    statistics and conversions do not depend on the query parameters.  Only
    the number of rows written differs: it is 0 for a dry run and the
    number of calls with value otherwise, and a run is dry only when the
    parameter [dry_run] is exactly "true". *)
Theorem sheets_dry_run (newDate : option string -> option CsvExport.date)
    (params params' : SheetsSync.query) (calls : list call) :
  let r := SheetsSync.handler newDate params calls in
  let r' := SheetsSync.handler newDate params' calls in
  SheetsSync.conversions r = SheetsSync.conversions r'
  /\ SheetsSync.runStats r = SheetsSync.runStats r'
  /\ SheetsSync.rowsWritten r
     = (if SheetsSync.dryRun r then 0
        else CsvExport.withValue (SheetsSync.runStats r))
  /\ (SheetsSync.dryRun r = true
      <-> SheetsSync.dry_run params = Some "true").
Proof.
  cbv zeta. unfold SheetsSync.handler.
  pose proof (sheets_process_counts newDate calls) as W.
  destruct (SheetsSync.process newDate calls) as [s out].
  cbn [SheetsSync.conversions SheetsSync.runStats SheetsSync.rowsWritten
       SheetsSync.dryRun fst snd] in *.
  split; [reflexivity|]. split; [reflexivity|]. split.
  - destruct (SheetsSync.dry_run params) as [v|]; cbn [negb andb];
      [destruct (String.eqb v "true"); cbn [negb andb]; [reflexivity|]|];
      (destruct (Nat.ltb_spec 0 (List.length out)); lia).
  - destruct (SheetsSync.dry_run params) as [v|]; [|split; discriminate].
    rewrite String.eqb_eq. split; [now intros -> | now intros [= ->]].
Qed.

(** ** The importer of the sheet *)

Local Abbreviation pendingFrom i rows :=
  (filter
     (fun c : nat * GoogleAdsScript.row =>
        negb (GoogleAdsScript.skipped (snd c)))
     (combine (seq i (List.length rows)) rows)).

Lemma selectFrom_spec (rows : list GoogleAdsScript.row) :
  forall i acc,
    List.length acc <= GoogleAdsScript.batchSize ->
    GoogleAdsScript.selectFrom i rows acc
    = acc ++ firstn (GoogleAdsScript.batchSize - List.length acc)
               (pendingFrom (i + 1) rows).
Proof.
  induction rows as [|r rest IH]; intros i acc B.
  - cbn. now rewrite firstn_nil, app_nil_r.
  - cbn [GoogleAdsScript.selectFrom List.length seq combine filter snd].
    destruct (Nat.ltb_spec (List.length acc) GoogleAdsScript.batchSize)
      as [L|L].
    + destruct (GoogleAdsScript.skipped r) eqn:Sk; cbn [negb].
      * rewrite IH by lia. now replace (S i + 1) with (S (i + 1)) by lia.
      * rewrite IH by (rewrite length_app; cbn; lia).
        rewrite length_app. cbn [List.length].
        destruct (GoogleAdsScript.batchSize - List.length acc) as [|n] eqn:D;
          [lia|].
        replace (GoogleAdsScript.batchSize - (List.length acc + 1))
          with n by lia.
        cbn [firstn]. rewrite <- app_assoc. cbn [app].
        now replace (S i + 1) with (S (i + 1)) by lia.
    + replace (GoogleAdsScript.batchSize - List.length acc) with 0 by lia.
      cbn [firstn]. now rewrite app_nil_r.
Qed.

Lemma select_closed (data : list GoogleAdsScript.row) :
  GoogleAdsScript.select data
  = firstn GoogleAdsScript.batchSize (pendingFrom 2 (tl data)).
Proof.
  unfold GoogleAdsScript.select.
  rewrite selectFrom_spec by (cbn; lia).
  cbn [List.length app]. now rewrite Nat.sub_0_r.
Qed.

Lemma in_combine_seq (rows : list GoogleAdsScript.row) :
  forall i idx r,
    In (idx, r) (combine (seq i (List.length rows)) rows) ->
    i <= idx /\ nth_error rows (idx - i) = Some r.
Proof.
  induction rows as [|x rest IH]; intros i idx r I; [destruct I|].
  cbn [List.length seq combine] in I. destruct I as [I|I].
  - injection I as <- <-. rewrite Nat.sub_diag. split; [lia | reflexivity].
  - apply IH in I. destruct I as [L N]. split; [lia|].
    replace (idx - i) with (S (idx - S i)) by lia. exact N.
Qed.

Lemma select_in (data : list GoogleAdsScript.row) (idx : nat)
    (r : GoogleAdsScript.row) :
  In (idx, r) (GoogleAdsScript.select data) ->
  2 <= idx /\ nth_error data (idx - 1) = Some r
  /\ GoogleAdsScript.skipped r = false.
Proof.
  rewrite select_closed. intro I.
  assert (I' : In (idx, r) (pendingFrom 2 (tl data))).
  { rewrite <- (firstn_skipn GoogleAdsScript.batchSize).
    apply in_or_app. now left. }
  clear I. rename I' into I.
  apply filter_In in I. destruct I as [I Sk]. cbn [snd] in Sk.
  apply in_combine_seq in I. destruct I as [L N].
  split; [exact L|]. split; [|now apply negb_true_iff in Sk].
  destruct data as [|h rows]; [destruct (idx - 2); discriminate N|].
  cbn [tl] in N. now replace (idx - 1) with (S (idx - 2)) by lia.
Qed.

Lemma select_indices_from (rows : list GoogleAdsScript.row) :
  forall i,
    map fst (pendingFrom i rows)
    = map fst
        (filter (fun c : nat * bool => negb (snd c))
           (combine (seq i (List.length rows))
              (map GoogleAdsScript.skipped rows))).
Proof.
  induction rows as [|r rest IH]; intro i; [reflexivity|].
  cbn [List.length seq combine filter map snd].
  destruct (GoogleAdsScript.skipped r); cbn [negb map fst];
    now rewrite IH.
Qed.

Lemma select_indices (data data' : list GoogleAdsScript.row) :
  map GoogleAdsScript.skipped data' = map GoogleAdsScript.skipped data ->
  map fst (GoogleAdsScript.select data')
  = map fst (GoogleAdsScript.select data).
Proof.
  intro E. rewrite !select_closed, <- !firstn_map, !select_indices_from.
  assert (T : map GoogleAdsScript.skipped (tl data')
              = map GoogleAdsScript.skipped (tl data)).
  { destruct data, data'; try discriminate E; [reflexivity|].
    now injection E. }
  assert (L : List.length (tl data') = List.length (tl data)).
  { rewrite <- (length_map GoogleAdsScript.skipped (tl data')), T.
    apply length_map. }
  now rewrite T, L.
Qed.

Lemma setImported_length (sheet : list GoogleAdsScript.row) :
  forall n v,
    List.length (GoogleAdsScript.setImported sheet n v)
    = List.length sheet.
Proof.
  induction sheet as [|r rest IH]; intros [|n] v; cbn; auto.
Qed.

Lemma setImported_other (sheet : list GoogleAdsScript.row) :
  forall n v j,
    j <> n ->
    nth_error (GoogleAdsScript.setImported sheet n v) j
    = nth_error sheet j.
Proof.
  induction sheet as [|r rest IH]; intros [|n] v [|j] D; cbn;
    try reflexivity; try congruence.
  apply IH. congruence.
Qed.

Lemma setImported_same (sheet : list GoogleAdsScript.row) :
  forall n v r,
    nth_error sheet n = Some r ->
    nth_error (GoogleAdsScript.setImported sheet n v) n
    = Some {| GoogleAdsScript.gclid := GoogleAdsScript.gclid r;
              GoogleAdsScript.callId := GoogleAdsScript.callId r;
              GoogleAdsScript.imported := v |}.
Proof.
  induction sheet as [|x rest IH]; intros [|n] v r N; cbn in *;
    try discriminate N.
  - now injection N as ->.
  - now apply IH.
Qed.

(** What the script writes into column K of a row it has tried. *)
Local Abbreviation verdict adsApp :=
  (if adsApp : bool then "IMPORTED" else "ERROR: AdsApp not available").

Local Abbreviation marked r v :=
  {| GoogleAdsScript.gclid := GoogleAdsScript.gclid r;
     GoogleAdsScript.callId := GoogleAdsScript.callId r;
     GoogleAdsScript.imported := v |}.

Lemma importOne_sheet (adsApp : bool) (sheet : list GoogleAdsScript.row)
    (res : GoogleAdsScript.results) (conv : nat * GoogleAdsScript.row) :
  fst (GoogleAdsScript.importOne adsApp (sheet, res) conv)
  = GoogleAdsScript.setImported sheet (fst conv - 1) (verdict adsApp).
Proof. destruct adsApp; reflexivity. Qed.

Lemma importAll_sheet (adsApp : bool)
    (convs : list (nat * GoogleAdsScript.row)) :
  forall sheet res,
    (forall c, In c convs -> 1 <= fst c) ->
    let sheet' :=
      fst (fold_left (GoogleAdsScript.importOne adsApp) convs (sheet, res))
    in
    List.length sheet' = List.length sheet
    /\ (forall j, ~ In (S j) (map fst convs) ->
          nth_error sheet' j = nth_error sheet j)
    /\ (forall j r, In (S j) (map fst convs) ->
          nth_error sheet j = Some r ->
          nth_error sheet' j = Some (marked r (verdict adsApp))).
Proof.
  induction convs as [|c rest IH]; intros sheet res P; cbv zeta.
  - cbn. split; [reflexivity|]. split; [reflexivity | contradiction].
  - cbn [fold_left map].
    pose proof (importOne_sheet adsApp sheet res c) as E.
    destruct (GoogleAdsScript.importOne adsApp (sheet, res) c)
      as [sheet1 res1].
    cbn [fst] in E.
    assert (P1 : 1 <= fst c) by (apply P; now left).
    specialize (IH sheet1 res1 (fun c' I => P c' (or_intror I))).
    cbv zeta in IH. destruct IH as (L & O & M).
    split; [rewrite L, E; apply setImported_length|]. split.
    + intros j N. rewrite O by (intro I; apply N; now right).
      rewrite E. apply setImported_other. intro J. apply N. left. lia.
    + intros j r I N.
      destruct (in_dec Nat.eq_dec (S j) (map fst rest)) as [R|R].
      * destruct (Nat.eq_dec j (fst c - 1)) as [J|J].
        -- rewrite (M j (marked r (verdict adsApp)) R); [reflexivity|].
           rewrite E, J. apply setImported_same. now rewrite <- J.
        -- apply (M j r R). rewrite E.
           now rewrite setImported_other.
      * destruct I as [I|I]; [|contradiction].
        rewrite (O j R), E.
        replace (fst c - 1) with j by lia.
        now apply setImported_same.
Qed.

Lemma importAll_results (adsApp : bool)
    (convs : list (nat * GoogleAdsScript.row)) :
  forall sheet res,
    snd (fold_left (GoogleAdsScript.importOne adsApp) convs (sheet, res))
    = if adsApp then
        {| GoogleAdsScript.success :=
             GoogleAdsScript.success res + List.length convs;
           GoogleAdsScript.failed := GoogleAdsScript.failed res;
           GoogleAdsScript.errors := GoogleAdsScript.errors res |}
      else
        {| GoogleAdsScript.success := GoogleAdsScript.success res;
           GoogleAdsScript.failed :=
             GoogleAdsScript.failed res + List.length convs;
           GoogleAdsScript.errors :=
             GoogleAdsScript.errors res
             ++ map (fun c => (GoogleAdsScript.callId (snd c),
                               "AdsApp not available")) convs |}.
Proof.
  induction convs as [|c rest IH]; intros sheet res.
  - cbn. rewrite !Nat.add_0_r, app_nil_r. now destruct adsApp, res.
  - cbn [fold_left].
    destruct adsApp; cbn [GoogleAdsScript.importOne
                            GoogleAdsScript.uploadConversion];
      rewrite IH;
      cbn [GoogleAdsScript.success GoogleAdsScript.failed
           GoogleAdsScript.errors List.length map];
      rewrite <- ?app_assoc; cbn [app]; f_equal; lia.
Qed.

Lemma main_sheet (adsApp : bool) (data : list GoogleAdsScript.row) :
  fst (GoogleAdsScript.main adsApp data)
  = fst (fold_left (GoogleAdsScript.importOne adsApp)
           (GoogleAdsScript.select data)
           (data, {| GoogleAdsScript.success := 0;
                     GoogleAdsScript.failed := 0;
                     GoogleAdsScript.errors := [] |})).
Proof.
  unfold GoogleAdsScript.main.
  destruct (GoogleAdsScript.select data) as [|c rest]; [reflexivity|].
  cbn [List.length Nat.eqb].
  now destruct (fold_left _ _ _).
Qed.

Lemma main_results (adsApp : bool) (data : list GoogleAdsScript.row) :
  snd (GoogleAdsScript.main adsApp data)
  = if List.length (GoogleAdsScript.select data) =? 0 then None
    else Some
           (snd (fold_left (GoogleAdsScript.importOne adsApp)
                   (GoogleAdsScript.select data)
                   (data, {| GoogleAdsScript.success := 0;
                             GoogleAdsScript.failed := 0;
                             GoogleAdsScript.errors := [] |}))).
Proof.
  unfold GoogleAdsScript.main.
  destruct (List.length (GoogleAdsScript.select data) =? 0);
    [reflexivity|].
  now destruct (fold_left _ _ _).
Qed.

Lemma select_positive (data : list GoogleAdsScript.row) :
  forall c, In c (GoogleAdsScript.select data) -> 1 <= fst c.
Proof.
  intros [idx r] I. apply select_in in I. cbn [fst]. lia.
Qed.

Lemma select_index_in (data : list GoogleAdsScript.row) (j : nat) :
  In (S j) (map fst (GoogleAdsScript.select data)) ->
  exists r, In (S j, r) (GoogleAdsScript.select data).
Proof.
  intro I. apply in_map_iff in I. destruct I as ([idx r] & E & I).
  cbn [fst] in E. subst idx. now exists r.
Qed.

(** X21: a run of the importer takes the first hundred pending rows of the
    sheet, in sheet order: the rows below the header that hold a click
    identifier and are not marked "IMPORTED".  So it never takes more than
    a hundred rows, never the header, and each conversion it takes carries
    the 1-based number of the row it was read from. *)
Theorem select_batch (data : list GoogleAdsScript.row) :
  GoogleAdsScript.select data
  = firstn 100
      (filter (fun c => negb (GoogleAdsScript.skipped (snd c)))
         (combine (seq 2 (List.length (tl data))) (tl data)))
  /\ List.length (GoogleAdsScript.select data) <= 100
  /\ forall idx r,
       In (idx, r) (GoogleAdsScript.select data) ->
       2 <= idx /\ nth_error data (idx - 1) = Some r
       /\ GoogleAdsScript.gclid r <> ""
       /\ GoogleAdsScript.imported r <> "IMPORTED".
Proof.
  split; [apply select_closed|]. split.
  - rewrite select_closed. apply firstn_le_length.
  - intros idx r I. apply select_in in I. destruct I as (L & N & Sk).
    split; [exact L|]. split; [exact N|].
    unfold GoogleAdsScript.skipped in Sk.
    apply orb_false_iff in Sk. destruct Sk as [G M]. split.
    + intro E. rewrite E in G. discriminate G.
    + intro E. rewrite E in M. discriminate M.
Qed.


(** X23: where [AdsApp] is missing a run marks every row it took with
    "ERROR: AdsApp not available" and counts it as failed, with one error
    per row in sheet order.  Such a row stays pending: the next run takes
    the rows with the very same numbers, so rows behind the first hundred
    pending ones are not reached. *)
Theorem main_without_adsapp (data : list GoogleAdsScript.row) :
  map fst (GoogleAdsScript.select (fst (GoogleAdsScript.main false data)))
  = map fst (GoogleAdsScript.select data)
  /\ (forall idx r,
        In (idx, r) (GoogleAdsScript.select data) ->
        nth_error (fst (GoogleAdsScript.main false data)) (idx - 1)
        = Some {| GoogleAdsScript.gclid := GoogleAdsScript.gclid r;
                  GoogleAdsScript.callId := GoogleAdsScript.callId r;
                  GoogleAdsScript.imported :=
                    "ERROR: AdsApp not available" |})
  /\ snd (GoogleAdsScript.main false data)
     = (if List.length (GoogleAdsScript.select data) =? 0 then None
        else Some {| GoogleAdsScript.success := 0;
                     GoogleAdsScript.failed :=
                       List.length (GoogleAdsScript.select data);
                     GoogleAdsScript.errors :=
                       map (fun c => (GoogleAdsScript.callId (snd c),
                                      "AdsApp not available"))
                         (GoogleAdsScript.select data) |}).
Proof.
  rewrite main_results, importAll_results, main_sheet.
  destruct (importAll_sheet false (GoogleAdsScript.select data) data
              {| GoogleAdsScript.success := 0; GoogleAdsScript.failed := 0;
                 GoogleAdsScript.errors := [] |} (select_positive data))
    as (L & O & M).
  split; [|split; [|reflexivity]].
  - apply select_indices. apply nth_error_ext. intro j.
    rewrite !nth_error_map.
    destruct (in_dec Nat.eq_dec (S j)
                (map fst (GoogleAdsScript.select data))) as [I|I].
    + destruct (select_index_in _ _ I) as [r Ir].
      destruct (select_in _ _ _ Ir) as (_ & N & Sk).
      replace (S j - 1) with j in N by lia.
      rewrite (M j r I N), N. cbn [option_map]. f_equal.
      rewrite Sk. unfold GoogleAdsScript.skipped in *.
      cbn [GoogleAdsScript.gclid GoogleAdsScript.imported].
      apply orb_false_iff in Sk. destruct Sk as [-> _]. reflexivity.
    + now rewrite O.
  - intros idx r I. destruct (select_in _ _ _ I) as (B & N & _).
    apply M; [|exact N].
    replace (S (idx - 1)) with idx by lia.
    apply in_map_iff. now exists (idx, r).
Qed.

(** ** The time the importer renders *)

Lemma padZero_two (n : Z) :
  (0 <= n <= 99)%Z -> GoogleAdsScript.padZero n = CsvExport.two n.
Proof.
  intro R.
  assert (All : forallb
                  (fun k =>
                     String.eqb (GoogleAdsScript.padZero (Z.of_nat k))
                       (CsvExport.two (Z.of_nat k))) (seq 0 100) = true)
    by (vm_compute; reflexivity).
  rewrite forallb_forall in All.
  specialize (All (Z.to_nat n)). rewrite Z2Nat.id in All by lia.
  apply String.eqb_eq, All, in_seq. lia.
Qed.

(** X24: the importer renders a time exactly as the spreadsheet sync does:
    for a date whose local fields are in their ranges, [formatDateTime] of
    a text cell, or of a date cell holding that date, is the text
    [formatGoogleAdsTime] gives, zero-padded fields and "-07:00" included;
    a text cell that is no date gives the same "NaN" text in both. *)
Theorem formatDateTime_agrees
    (newDate : option string -> option CsvExport.date)
    (today : CsvExport.date) (s : string) (d : CsvExport.date) :
  newDate (Some s) = Some d ->
  (0 <= CsvExport.getMonth d <= 11)%Z ->
  (1 <= CsvExport.getDate d <= 31)%Z ->
  (0 <= CsvExport.getHours d <= 23)%Z ->
  (0 <= CsvExport.getMinutes d <= 59)%Z ->
  (0 <= CsvExport.getSeconds d <= 59)%Z ->
  GoogleAdsScript.formatDateTime newDate today (GoogleAdsScript.CellString s)
  = SheetsSync.formatGoogleAdsTime newDate (Some s)
  /\ GoogleAdsScript.formatDateTime newDate today
       (GoogleAdsScript.CellDate (Some d))
     = SheetsSync.formatGoogleAdsTime newDate (Some s)
  /\ (forall s', newDate (Some s') = None ->
        GoogleAdsScript.formatDateTime newDate today
          (GoogleAdsScript.CellString s')
        = SheetsSync.formatGoogleAdsTime newDate (Some s')).
Proof.
  intros V Rm Rd Rh Rmi Rs.
  unfold GoogleAdsScript.formatDateTime, SheetsSync.formatGoogleAdsTime.
  rewrite V, !padZero_two by lia.
  split; [reflexivity|]. split; [reflexivity|].
  intros s' ->. reflexivity.
Qed.

Lemma formatDateTime_agrees_witness :
  GoogleAdsScript.formatDateTime
    (fun _ =>
       Some {| CsvExport.getFullYear := 2024; CsvExport.getMonth := 2;
               CsvExport.getDate := 5; CsvExport.getHours := 9;
               CsvExport.getMinutes := 7; CsvExport.getSeconds := 3 |})
    {| CsvExport.getFullYear := 2025; CsvExport.getMonth := 0;
       CsvExport.getDate := 1; CsvExport.getHours := 0;
       CsvExport.getMinutes := 0; CsvExport.getSeconds := 0 |}
    (GoogleAdsScript.CellString "2024-03-05T16:07:03Z")
  = SheetsSync.formatGoogleAdsTime
      (fun _ =>
         Some {| CsvExport.getFullYear := 2024; CsvExport.getMonth := 2;
                 CsvExport.getDate := 5; CsvExport.getHours := 9;
                 CsvExport.getMinutes := 7; CsvExport.getSeconds := 3 |})
      (Some "2024-03-05T16:07:03Z").
Proof.
  refine (proj1 (formatDateTime_agrees _ _ _ _ eq_refl _ _ _ _ _));
    cbn; lia.
Defined.
